(** * Subscription manager of the KBFS client

    Source: go/kbfs/libkbfs/subscription_manager.go.

    A shallow embedding of the subscription and notification-coalescing
    engine: the path helpers, the per-client [subscriptionManager], the
    [debounce] delivery primitive and the [subscriptionManagerManager]
    registry, followed by the properties checked against the specification.

    Go maps are [gmap]s; a lookup of a missing key is [None], which stands for
    the zero value the Go expression yields there ([nil] for an inner map,
    [false] for a bool, [0] for an int).  Calls that leave the manager (the
    change notifier of the config, the [notify] and [shutdown] closures of a
    [debouncedNotify], the online status tracker) are recorded, in order, in
    the [effects] of a [World].  Every method body that runs under the
    manager's lock is one function of the model. *)

From stdpp Require Import gmap strings list fin_maps.
From Stdlib Require Import ZArith Lia Ascii String.

Local Open Scope string_scope.
Local Open Scope list_scope.
Local Open Scope Z_scope.

(** ** Identifiers and external types *)

(** [type SubscriptionManagerClientID string] *)
Abbreviation SubscriptionManagerClientID := string (only parsing).
(** [type SubscriptionID string] (interfaces.go) *)
Abbreviation SubscriptionID := string (only parsing).
(** [type cleanInTlfPath string] *)
Abbreviation cleanInTlfPath := string (only parsing).
(** [keybase1.SubscriptionTopic] and [keybase1.PathSubscriptionTopic] are Go
    [int] enumerations. *)
Abbreviation SubscriptionTopic := Z (only parsing).
Abbreviation PathSubscriptionTopic := Z (only parsing).

(** Modelled from the spec: the two topics the manager names are declared in
    the protocol package, which is not among the sources.  The spec says
    that the non-path topics "include at least an online-status topic and an
    overall-sync-status topic"; the numbers are those of the protocol, and
    nothing below depends on them but that they differ. *)
Definition SubscriptionTopic_ONLINE_STATUS : SubscriptionTopic := 2.
Definition SubscriptionTopic_OVERALL_SYNC_STATUS : SubscriptionTopic := 5.

(** Modelled from the spec: the declaration of [data.FolderBranch] is not among
    the sources.  The spec's ContainerBranch "identifies a top-level encrypted
    container plus a specific revision line within it"; the zero value
    [data.FolderBranch{}] is the unresolved container. *)
Record FolderBranch := mkFolderBranch { Tlf : string; Branch : string }.

Definition zeroFolderBranch : FolderBranch := mkFolderBranch "" "".

#[global] Instance FolderBranch_eq_dec : EqDecision FolderBranch.
Proof. solve_decision. Defined.

#[global] Instance FolderBranch_countable : Countable FolderBranch.
Proof.
  refine (inj_countable' (λ fb, (Tlf fb, Branch fb))
                         (λ p, mkFolderBranch p.1 p.2) _).
  by intros [].
Defined.

(** [type pathSubscriptionRef struct] *)
Record pathSubscriptionRef := mkRef {
  folderBranch : FolderBranch;
  path : cleanInTlfPath;
}.

#[global] Instance pathSubscriptionRef_eq_dec : EqDecision pathSubscriptionRef.
Proof. solve_decision. Defined.

#[global] Instance pathSubscriptionRef_countable : Countable pathSubscriptionRef.
Proof.
  refine (inj_countable' (λ r, (folderBranch r, path r))
                         (λ p, mkRef p.1 p.2) _).
  by intros [].
Defined.

(** ** Path helpers *)

Module Paths.

(** [strings.LastIndex(s, sep)] for the one-byte separator the manager uses:
    the index of the last occurrence of [c] in [s], or [-1]. *)
Fixpoint LastIndexByte_from (s : string) (c : ascii) (i acc : Z) : Z :=
  match s with
  | EmptyString => acc
  | String a s' =>
      LastIndexByte_from s' c (i + 1) (if Ascii.eqb a c then i else acc)
  end.

Definition LastIndexByte (s : string) (c : ascii) : Z :=
  LastIndexByte_from s c 0 (-1).

Definition slash : ascii := "/"%char.

(** [func getParentPath(p cleanInTlfPath) (parent cleanInTlfPath, ok bool)] *)
Definition getParentPath (p : cleanInTlfPath) : cleanInTlfPath * bool :=
  let lastSlashIndex := LastIndexByte p slash in
  if lastSlashIndex <=? 0 then ("", false)
  else (substring 0 (Z.to_nat lastSlashIndex) p, true).

(** The parent as the specification words it, "one path component up": the
    root has none, a top-level path has the root, any other path has the
    text before its last separator.  Only used to compare with
    [getParentPath]. *)
Definition spec_parent (p : cleanInTlfPath) : option cleanInTlfPath :=
  let i := LastIndexByte p slash in
  if String.eqb p "/" then None
  else if i <? 0 then None
  else if i =? 0 then Some "/"
  else Some (substring 0 (Z.to_nat i) p).

(** [p] has no separator but a leading one. *)
Definition only_leading_slash (p : cleanInTlfPath) : Prop :=
  LastIndexByte p slash = 0.

(** [name] is one path component: it holds no separator. *)
Definition component (name : string) : Prop :=
  LastIndexByte name slash = -1.

End Paths.

(** ** The outside world *)

(** What a delivery does when it fires: the closures [subscribePath] and
    [subscribeNonPath] hand to [debounce]. *)
Inductive Callback :=
| OnPathChange (notifier : nat) (clientID : SubscriptionManagerClientID)
    (sid : SubscriptionID) (path : string) (topic : PathSubscriptionTopic)
| OnNonPathChange (notifier : nat) (clientID : SubscriptionManagerClientID)
    (sid : SubscriptionID) (topic : SubscriptionTopic).

#[global] Instance Callback_eq_dec : EqDecision Callback.
Proof. solve_decision. Defined.

(** [rate.Limit]: [rate.Inf], or one event every [interval] nanoseconds. *)
Inductive Limit :=
| Inf
| Every (interval : Z).

#[global] Instance Limit_eq_dec : EqDecision Limit.
Proof. solve_decision. Defined.

(** [rate.Every] of golang.org/x/time/rate: a non-positive interval is
    [rate.Inf]. *)
Definition rate_Every (interval : Z) : Limit :=
  if interval <=? 0 then Inf else Every interval.

Definition is_Inf (l : Limit) : bool :=
  match l with Inf => true | Every _ => false end.

(** [type debouncedNotify struct]: the pair of closures [debounce] returns.
    Both close over the channel and the context of one [debounce] call, which
    [dn_id] names; [dn_do] and [dn_limit] are the arguments of that call. *)
Record debouncedNotify := mkDebounced {
  dn_id : nat;
  dn_do : Callback;
  dn_limit : Limit;
}.

#[global] Instance debouncedNotify_eq_dec : EqDecision debouncedNotify.
Proof. solve_decision. Defined.

Inductive Effect :=
| RegisterForChanges (fb : FolderBranch)
| UnregisterFromChanges (fb : FolderBranch)
| Debounce (dn : debouncedNotify)
| Notify (id : nat)
| ShutdownNotify (id : nat)
| NewOnlineStatusTracker (clientID : SubscriptionManagerClientID)
| ShutdownOnlineStatusTracker (clientID : SubscriptionManagerClientID).

#[global] Instance Effect_eq_dec : EqDecision Effect.
Proof. solve_decision. Defined.

Record World := mkWorld {
  next_id : nat;
  effects : list Effect;
}.

Definition emit (e : Effect) (w : World) : World :=
  mkWorld (next_id w) (effects w ++ [e]).

Definition newWorld : World := mkWorld 0%nat [].

(** The manager's view of [debounce(do, limit)]: a new background task with
    its own channel and context.  Its behaviour is the subject of
    [Module Debounce] below. *)
Definition debounce (do : Callback) (limit : Limit) (w : World)
  : debouncedNotify * World :=
  let dn := mkDebounced (next_id w) do limit in
  (dn, mkWorld (S (next_id w)) (effects w ++ [Debounce dn])).

(** ** Path resolution (external collaborators) *)

Inductive error :=
| ErrDuplicateSubscriptionID (sid : SubscriptionID)
| ErrResolve (msg : string).

Record parsedPath := mkParsedPath { rawInTlfPath : string }.

(** The functions of the config and of other packages that [subscribePath]
    calls before it takes the lock. *)
Record Config := mkConfig {
  parsePath : string → string + parsedPath;
  getFolderBranch : parsedPath → string + FolderBranch;
  path_Clean : string → string;
}.

(** [func getCleanInTlfPath(p *parsedPath) cleanInTlfPath] *)
Definition getCleanInTlfPath (cfg : Config) (p : parsedPath) : cleanInTlfPath :=
  path_Clean cfg (rawInTlfPath p).

(** ** The subscription manager *)

Record subscriptionManager := mkSM {
  clientID : SubscriptionManagerClientID;
  pathSubscriptions : gmap pathSubscriptionRef (gmap string debouncedNotify);
  pathSubscriptionIDToRef : gmap string pathSubscriptionRef;
  nonPathSubscriptions : gmap Z (gmap string debouncedNotify);
  nonPathSubscriptionIDToTopic : gmap string Z;
  subscriptionIDs : gmap string bool;
  subscriptionCountByFolderBranch : gmap FolderBranch Z;
}.

Definition with_pathSubscriptions
    (f : gmap pathSubscriptionRef (gmap string debouncedNotify) →
         gmap pathSubscriptionRef (gmap string debouncedNotify))
    (sm : subscriptionManager) : subscriptionManager :=
  mkSM (clientID sm) (f (pathSubscriptions sm)) (pathSubscriptionIDToRef sm)
       (nonPathSubscriptions sm) (nonPathSubscriptionIDToTopic sm)
       (subscriptionIDs sm) (subscriptionCountByFolderBranch sm).

Definition with_pathSubscriptionIDToRef
    (f : gmap string pathSubscriptionRef → gmap string pathSubscriptionRef)
    (sm : subscriptionManager) : subscriptionManager :=
  mkSM (clientID sm) (pathSubscriptions sm) (f (pathSubscriptionIDToRef sm))
       (nonPathSubscriptions sm) (nonPathSubscriptionIDToTopic sm)
       (subscriptionIDs sm) (subscriptionCountByFolderBranch sm).

Definition with_nonPathSubscriptions
    (f : gmap Z (gmap string debouncedNotify) →
         gmap Z (gmap string debouncedNotify))
    (sm : subscriptionManager) : subscriptionManager :=
  mkSM (clientID sm) (pathSubscriptions sm) (pathSubscriptionIDToRef sm)
       (f (nonPathSubscriptions sm)) (nonPathSubscriptionIDToTopic sm)
       (subscriptionIDs sm) (subscriptionCountByFolderBranch sm).

Definition with_nonPathSubscriptionIDToTopic
    (f : gmap string Z → gmap string Z)
    (sm : subscriptionManager) : subscriptionManager :=
  mkSM (clientID sm) (pathSubscriptions sm) (pathSubscriptionIDToRef sm)
       (nonPathSubscriptions sm) (f (nonPathSubscriptionIDToTopic sm))
       (subscriptionIDs sm) (subscriptionCountByFolderBranch sm).

Definition with_subscriptionIDs
    (f : gmap string bool → gmap string bool)
    (sm : subscriptionManager) : subscriptionManager :=
  mkSM (clientID sm) (pathSubscriptions sm) (pathSubscriptionIDToRef sm)
       (nonPathSubscriptions sm) (nonPathSubscriptionIDToTopic sm)
       (f (subscriptionIDs sm)) (subscriptionCountByFolderBranch sm).

Definition with_subscriptionCountByFolderBranch
    (f : gmap FolderBranch Z → gmap FolderBranch Z)
    (sm : subscriptionManager) : subscriptionManager :=
  mkSM (clientID sm) (pathSubscriptions sm) (pathSubscriptionIDToRef sm)
       (nonPathSubscriptions sm) (nonPathSubscriptionIDToTopic sm)
       (subscriptionIDs sm) (f (subscriptionCountByFolderBranch sm)).

(** Go's [int] is 64 bits wide here; [++] and [--] wrap. *)
Definition wrap64 (z : Z) : Z :=
  (z + 2 ^ 63) mod 2 ^ 64 - 2 ^ 63.

(** [m[k]] on a [map[K]int] and on a [map[K]bool]. *)
Definition int_at `{Countable K} (m : gmap K Z) (k : K) : Z :=
  default 0 (m !! k).
Definition bool_at `{Countable K} (m : gmap K bool) (k : K) : bool :=
  default false (m !! k).

(** [func newSubscriptionManager(clientID, config) *subscriptionManager] *)
Definition newSubscriptionManager (cid : SubscriptionManagerClientID)
    (w : World) : subscriptionManager * World :=
  (mkSM cid ∅ ∅ ∅ ∅ ∅ ∅, emit (NewOnlineStatusTracker cid) w).

(** [func (sm) checkSubscriptionIDLocked(sid) (setter func(), err error)] *)
Definition checkSubscriptionIDLocked (sid : SubscriptionID)
    (sm : subscriptionManager)
  : error + (subscriptionManager → subscriptionManager) :=
  if bool_at (subscriptionIDs sm) sid
  then inl (ErrDuplicateSubscriptionID sid)
  else inr (with_subscriptionIDs (λ m, <[sid := true]> m)).

(** [func (sm) registerForChangesLocked(fb)] *)
Definition registerForChangesLocked (fb : FolderBranch)
    (sm : subscriptionManager) (w : World) : subscriptionManager * World :=
  let w :=
    if int_at (subscriptionCountByFolderBranch sm) fb =? 0
    then emit (RegisterForChanges fb) w else w in
  (with_subscriptionCountByFolderBranch
     (λ m, <[fb := wrap64 (int_at m fb + 1)]> m) sm, w).

(** [func (sm) unregisterForChangesLocked(fb)] *)
Definition unregisterForChangesLocked (fb : FolderBranch)
    (sm : subscriptionManager) (w : World) : subscriptionManager * World :=
  if int_at (subscriptionCountByFolderBranch sm) fb =? 1
  then (with_subscriptionCountByFolderBranch (delete fb) sm,
        emit (UnregisterFromChanges fb) w)
  else (with_subscriptionCountByFolderBranch
          (λ m, <[fb := wrap64 (int_at m fb - 1)]> m) sm, w).

(** [func (sm) subscribePath(ctx, sid, path, topic, deduplicateInterval,
    notifier) error]; [None] is the [nil] error. *)
Definition subscribePath (cfg : Config) (sid : SubscriptionID) (p : string)
    (topic : PathSubscriptionTopic) (deduplicateInterval : option Z)
    (notifier : nat) (sm : subscriptionManager) (w : World)
  : option error * subscriptionManager * World :=
  match parsePath cfg p with
  | inl err => (Some (ErrResolve err), sm, w)
  | inr parsed =>
    match getFolderBranch cfg parsed with
    | inl err => (Some (ErrResolve err), sm, w)
    | inr fb =>
      if decide (fb = zeroFolderBranch) then (None, sm, w)
      else
        let nitp := getCleanInTlfPath cfg parsed in
        let ref := mkRef fb nitp in
        match checkSubscriptionIDLocked sid sm with
        | inl err => (Some err, sm, w)
        | inr subscriptionIDSetter =>
          let '(sm, w) := registerForChangesLocked (folderBranch ref) sm w in
          let sm :=
            match pathSubscriptions sm !! ref with
            | None => with_pathSubscriptions (λ m, <[ref := ∅]> m) sm
            | Some _ => sm
            end in
          let limit :=
            match deduplicateInterval with
            | None => Inf
            | Some d => rate_Every d
            end in
          let '(dn, w) :=
            debounce (OnPathChange notifier (clientID sm) sid p topic) limit w in
          let sm :=
            with_pathSubscriptions
              (λ m, <[ref := <[sid := dn]> (default ∅ (m !! ref))]> m) sm in
          let sm := with_pathSubscriptionIDToRef (λ m, <[sid := ref]> m) sm in
          (None, subscriptionIDSetter sm, w)
        end
    end
  end.

(** [func (sm) subscribeNonPath(ctx, sid, topic, deduplicateInterval,
    notifier) error] *)
Definition subscribeNonPath (sid : SubscriptionID) (topic : SubscriptionTopic)
    (deduplicateInterval : option Z) (notifier : nat)
    (sm : subscriptionManager) (w : World)
  : option error * subscriptionManager * World :=
  match checkSubscriptionIDLocked sid sm with
  | inl err => (Some err, sm, w)
  | inr subscriptionIDSetter =>
    let sm :=
      match nonPathSubscriptions sm !! topic with
      | None => with_nonPathSubscriptions (λ m, <[topic := ∅]> m) sm
      | Some _ => sm
      end in
    let limit :=
      match deduplicateInterval with
      | None => Inf
      | Some d => rate_Every d
      end in
    let '(dn, w) :=
      debounce (OnNonPathChange notifier (clientID sm) sid topic) limit w in
    let sm :=
      with_nonPathSubscriptions
        (λ m, <[topic := <[sid := dn]> (default ∅ (m !! topic))]> m) sm in
    let sm := with_nonPathSubscriptionIDToTopic (λ m, <[sid := topic]> m) sm in
    (None, subscriptionIDSetter sm, w)
  end.

(** [func (sm) unsubscribePath(ctx, subscriptionID)] *)
Definition unsubscribePath (subscriptionID : SubscriptionID)
    (sm : subscriptionManager) (w : World) : subscriptionManager * World :=
  match pathSubscriptionIDToRef sm !! subscriptionID with
  | None => (sm, w)
  | Some ref =>
    let sm := with_pathSubscriptionIDToRef (delete subscriptionID) sm in
    match pathSubscriptions sm !! ref with
    | None => (sm, w)
    | Some bucket =>
      let '(bucket, w) :=
        match bucket !! subscriptionID with
        | Some notifier =>
            (delete subscriptionID bucket, emit (ShutdownNotify (dn_id notifier)) w)
        | None => (bucket, w)
        end in
      let sm := with_pathSubscriptions (λ m, <[ref := bucket]> m) sm in
      let '(sm, w) :=
        if decide (size bucket = 0%nat)
        then
          let '(sm, w) := unregisterForChangesLocked (folderBranch ref) sm w in
          (with_pathSubscriptions (delete ref) sm, w)
        else (sm, w) in
      (with_subscriptionIDs (delete subscriptionID) sm, w)
    end
  end.

(** [func (sm) unsubscribeNonPath(ctx, subscriptionID)] *)
Definition unsubscribeNonPath (subscriptionID : SubscriptionID)
    (sm : subscriptionManager) (w : World) : subscriptionManager * World :=
  match nonPathSubscriptionIDToTopic sm !! subscriptionID with
  | None => (sm, w)
  | Some topic =>
    let sm := with_nonPathSubscriptionIDToTopic (delete subscriptionID) sm in
    match nonPathSubscriptions sm !! topic with
    | None => (sm, w)
    | Some bucket =>
      let '(bucket, w) :=
        match bucket !! subscriptionID with
        | Some notifier =>
            (delete subscriptionID bucket, emit (ShutdownNotify (dn_id notifier)) w)
        | None => (bucket, w)
        end in
      let sm := with_nonPathSubscriptions (λ m, <[topic := bucket]> m) sm in
      (with_subscriptionIDs (delete subscriptionID) sm, w)
    end
  end.

(** [func (s subscriber) Unsubscribe(ctx, sid)] *)
Definition Unsubscribe (sid : SubscriptionID)
    (sm : subscriptionManager) (w : World) : subscriptionManager * World :=
  let '(sm, w) := unsubscribePath sid sm w in
  unsubscribeNonPath sid sm w.

(** The loop [for _, notifier := range bucket { notifier.notify() }]. *)
Definition notifyBucket (bucket : gmap string debouncedNotify) (w : World)
  : World :=
  foldl (λ w kv, emit (Notify (dn_id kv.2)) w) w (map_to_list bucket).

(** [func (sm) notifyRef(ref pathSubscriptionRef)] *)
Definition notifyRef (ref : pathSubscriptionRef) (sm : subscriptionManager)
    (w : World) : World :=
  match pathSubscriptions sm !! ref with
  | None => w
  | Some bucket => notifyBucket bucket w
  end.

(** What the manager reads of a [Node]: [GetFolderBranch()] and the two
    results of [GetPathPlaintextSansTlf()] ([None] when [ok] is false). *)
Record Node := mkNode {
  GetFolderBranch : FolderBranch;
  GetPathPlaintextSansTlf : option string;
}.

(** [func (sm) nodeChangeLocked(node Node)] *)
Definition nodeChangeLocked (node : Node) (sm : subscriptionManager)
    (w : World) : World :=
  match GetPathPlaintextSansTlf node with
  | None => w
  | Some cleanPath =>
    let w := notifyRef (mkRef (GetFolderBranch node) cleanPath) sm w in
    match Paths.getParentPath cleanPath with
    | (parent, true) => notifyRef (mkRef (GetFolderBranch node) parent) sm w
    | (_, false) => w
    end
  end.

(** [func (sm) LocalChange(ctx, node, write)] *)
Definition LocalChange (node : Node) (sm : subscriptionManager) (w : World)
  : World :=
  nodeChangeLocked node sm w.

(** [func (sm) BatchChanges(ctx, changes, allAffectedNodeIDs)] *)
Definition BatchChanges (changes : list Node) (sm : subscriptionManager)
    (w : World) : World :=
  foldl (λ w node, nodeChangeLocked node sm w) w changes.

(** [func (sm) PublishChange(topic keybase1.SubscriptionTopic)] *)
Definition PublishChange (topic : SubscriptionTopic)
    (sm : subscriptionManager) (w : World) : World :=
  let w :=
    if decide (topic = SubscriptionTopic_OVERALL_SYNC_STATUS)
    then foldl (λ w kv, notifyBucket kv.2 w) w
               (map_to_list (pathSubscriptions sm))
    else w in
  match nonPathSubscriptions sm !! topic with
  | None => w
  | Some bucket => notifyBucket bucket w
  end.

(** [func (sm) Shutdown(ctx)] *)
Definition Shutdown (sm : subscriptionManager) (w : World)
  : subscriptionManager * World :=
  let w := emit (ShutdownOnlineStatusTracker (clientID sm)) w in
  let pathSids := (map_to_list (pathSubscriptionIDToRef sm)).*1 in
  let nonPathSids := (map_to_list (nonPathSubscriptionIDToTopic sm)).*1 in
  let s :=
    foldl (λ s sid, unsubscribePath sid s.1 s.2) (sm, w) pathSids in
  foldl (λ s sid, unsubscribeNonPath sid s.1 s.2) s nonPathSids.

(** ** The registry of managers *)

(** The registry maps client IDs to pointers; the managers themselves live in
    a heap, so that a manager a caller still holds and the manager a later
    [get] creates for the same client ID are different objects. *)
Record Heap := mkHeap {
  objects : gmap nat subscriptionManager;
  next_loc : nat;
}.

Definition newHeap : Heap := mkHeap ∅ 0%nat.

Definition alloc (sm : subscriptionManager) (h : Heap) : nat * Heap :=
  (next_loc h, mkHeap (<[next_loc h := sm]> (objects h)) (S (next_loc h))).

Record subscriptionManagerManager := mkSMM {
  subscriptionManagers : gmap string nat;
  purgeableClientIDsFIFO : list string;
}.

Definition maxPurgeableSubscriptionManagerClient : nat := 3.

(** [func newSubscriptionManagerManager(config) *subscriptionManagerManager] *)
Definition newSubscriptionManagerManager : subscriptionManagerManager :=
  mkSMM ∅ [].

Record Registry := mkRegistry {
  smm : subscriptionManagerManager;
  heap : Heap;
  world : World;
}.

Definition newRegistry : Registry :=
  mkRegistry newSubscriptionManagerManager newHeap newWorld.

(** [sm.Shutdown(ctx)] through a pointer: [None] is the panic of a nil (or
    dangling) receiver. *)
Definition Shutdown_at (l : option nat) (h : Heap) (w : World)
  : option (Heap * World) :=
  l ← l;
  sm ← objects h !! l;
  let '(sm, w) := Shutdown sm w in
  Some (mkHeap (<[l := sm]> (objects h)) (next_loc h), w).

(** [func (smm) get(clientID, purgeable bool) *subscriptionManager], run
    without interleaving; [None] is a panic. *)
Definition get (cid : SubscriptionManagerClientID) (purgeable : bool)
    (r : Registry) : option (nat * Registry) :=
  match subscriptionManagers (smm r) !! cid with
  | Some sm => Some (sm, r)
  | None =>
    r ←
      (if purgeable then
         r ←
           (if decide (List.length (purgeableClientIDsFIFO (smm r))
                       = maxPurgeableSubscriptionManagerClient)
            then
              toPurge ← head (purgeableClientIDsFIFO (smm r));
              '(h, w) ← Shutdown_at (subscriptionManagers (smm r) !! toPurge)
                                    (heap r) (world r);
              Some (mkRegistry
                      (mkSMM (delete toPurge (subscriptionManagers (smm r)))
                             (tail (purgeableClientIDsFIFO (smm r))))
                      h w)
            else Some r);
         Some (mkRegistry
                 (mkSMM (subscriptionManagers (smm r))
                        (purgeableClientIDsFIFO (smm r) ++ [cid]))
                 (heap r) (world r))
       else Some r);
    let '(sm, w) := newSubscriptionManager cid (world r) in
    let '(l, h) := alloc sm (heap r) in
    Some (l, mkRegistry
               (mkSMM (<[cid := l]> (subscriptionManagers (smm r)))
                      (purgeableClientIDsFIFO (smm r)))
               h w)
  end.

(** ** The coalesced delivery primitive *)

(** One [debounce] call creates a context, a channel of capacity one and a
    goroutine.  The model is the state of these three and a step function per
    party: the caller's [notify] and [shutdown], and the goroutine's loop.
    Time is abstracted: a return of [limiter.Wait] with a nil error is the
    event [Granted], and the limiter (burst 1) spaces these events by its
    interval; [go do()] is the event [Fired]. *)
Module Debounce.

Inductive event := Granted | Fired.

#[global] Instance event_eq_dec : EqDecision event.
Proof. solve_decision. Defined.

(** Where the goroutine stands: in [limiter.Wait(ctx)], in the [select], or
    returned. *)
Inductive pc := AtWait | AtSelect | Returned.

Record state := mkState {
  blocking : bool;
  ch : nat;
  cancelled : bool;
  task : pc;
  log : list event;
}.

(** [make(chan struct{}, 1)] *)
Definition cap : nat := 1%nat.

Definition send (st : state) : state :=
  mkState (blocking st) (S (ch st)) (cancelled st) (task st) (log st).

(** [func getChSender(ch, blocking) func()]: the returned closure, as a
    step of its caller.  [None]: the caller is parked on [ch <- struct{}{}]
    in this state. *)
Definition getChSender (blocking : bool) (st : state) : option state :=
  if blocking then
    if (ch st <? cap)%nat then Some (send st) else None
  else
    if (ch st <? cap)%nat then Some (send st) else Some st.

(** [func debounce(do, limit) debouncedNotify]: the state right after the
    call, and its two closures. *)
Definition start (limit : Limit) : state :=
  mkState (is_Inf limit) 0%nat false AtWait [].

Definition notify (st : state) : option state :=
  getChSender (blocking st) st.

Definition shutdown (st : state) : state :=
  mkState (blocking st) (ch st) true (task st) (log st).

Definition granted (st : state) : state :=
  mkState (blocking st) (ch st) (cancelled st) AtSelect (log st ++ [Granted]).

Definition fired (st : state) : state :=
  mkState (blocking st) (pred (ch st)) (cancelled st) AtWait
          (log st ++ [Fired]).

Definition returned (st : state) : state :=
  mkState (blocking st) (ch st) (cancelled st) Returned (log st).

(** One step of the goroutine.  [limiter.Wait(ctx)] fails once the context
    is cancelled.  When both cases of the [select] are ready Go picks
    either; [pick_ch] is that choice.  [None]: the goroutine is parked, or
    has returned. *)
Definition task_step (pick_ch : bool) (st : state) : option state :=
  match task st with
  | AtWait => if cancelled st then Some (returned st) else Some (granted st)
  | AtSelect =>
      match ch st, cancelled st with
      | S _, true => Some (if pick_ch then fired st else returned st)
      | S _, false => Some (fired st)
      | O, true => Some (returned st)
      | O, false => None
      end
  | Returned => None
  end.

Inductive action :=
| CallNotify
| CallShutdown
| TaskStep (pick_ch : bool).

Definition step (a : action) (st : state) : option state :=
  match a with
  | CallNotify => notify st
  | CallShutdown => Some (shutdown st)
  | TaskStep pick_ch => task_step pick_ch st
  end.

(** A schedule is a list of actions; it runs if each is enabled in turn. *)
Fixpoint run (acts : list action) (st : state) : option state :=
  match acts with
  | [] => Some st
  | a :: acts =>
      match step a st with
      | Some st' => run acts st'
      | None => None
      end
  end.

Definition reachable (limit : Limit) (st : state) : Prop :=
  ∃ acts, run acts (start limit) = Some st.





End Debounce.

(** ** Sequences of operations *)

(** The state of a manager and its world after an operation that also
    returns an error. *)
Definition after {A} (r : A * subscriptionManager * World)
  : subscriptionManager * World := (r.1.2, r.2).

Inductive PathOp :=
| OpSubscribePath (sid : SubscriptionID) (p : string)
    (topic : PathSubscriptionTopic) (deduplicateInterval : option Z)
    (notifier : nat)
| OpUnsubscribePath (sid : SubscriptionID).

Definition apply_op (cfg : Config) (s : subscriptionManager * World)
    (op : PathOp) : subscriptionManager * World :=
  match op with
  | OpSubscribePath sid p topic d n =>
      after (subscribePath cfg sid p topic d n s.1 s.2)
  | OpUnsubscribePath sid => unsubscribePath sid s.1 s.2
  end.

Definition run_ops (cfg : Config) (ops : list PathOp)
    (s : subscriptionManager * World) : subscriptionManager * World :=
  foldl (apply_op cfg) s ops.

(** What callers do with a registry: [get] a manager, and use a manager
    through the pointer [get] returned. *)
Inductive RegistryOp :=
| DoGet (cid : SubscriptionManagerClientID) (purgeable : bool)
| DoSubscribePath (l : nat) (cfg : Config) (sid : SubscriptionID)
    (p : string) (topic : PathSubscriptionTopic)
    (deduplicateInterval : option Z) (notifier : nat)
| DoSubscribeNonPath (l : nat) (sid : SubscriptionID)
    (topic : SubscriptionTopic) (deduplicateInterval : option Z)
    (notifier : nat)
| DoUnsubscribe (l : nat) (sid : SubscriptionID).

(** A method of the manager at location [l]; a dangling pointer is a
    panic. *)
Definition at_manager (l : nat)
    (f : subscriptionManager → World → subscriptionManager * World)
    (r : Registry) : option Registry :=
  sm ← objects (heap r) !! l;
  let s := f sm (world r) in
  Some (mkRegistry (smm r)
                   (mkHeap (<[l := s.1]> (objects (heap r)))
                           (next_loc (heap r)))
                   s.2).

Definition registry_step (r : Registry) (op : RegistryOp) : option Registry :=
  match op with
  | DoGet cid purgeable => snd <$> get cid purgeable r
  | DoSubscribePath l cfg sid p topic d n =>
      at_manager l (λ sm w, after (subscribePath cfg sid p topic d n sm w)) r
  | DoSubscribeNonPath l sid topic d n =>
      at_manager l (λ sm w, after (subscribeNonPath sid topic d n sm w)) r
  | DoUnsubscribe l sid => at_manager l (Unsubscribe sid) r
  end.

Fixpoint registry_run (ops : list RegistryOp) (r : Registry)
  : option Registry :=
  match ops with
  | [] => Some r
  | op :: ops =>
      match registry_step r op with
      | Some r' => registry_run ops r'
      | None => None
      end
  end.

(** ** What the properties observe *)

(** The effects an operation added to the world. *)
Definition emitted (w w' : World) : list Effect :=
  drop (List.length (effects w)) (effects w').

(** The [notify] calls of one walk over a bucket. *)
Definition bucket_notifications (bucket : gmap string debouncedNotify)
  : list Effect :=
  (λ kv, Notify (dn_id kv.2)) <$> map_to_list bucket.

Definition ref_notifications (sm : subscriptionManager)
    (ref : pathSubscriptionRef) : list Effect :=
  match pathSubscriptions sm !! ref with
  | None => []
  | Some bucket => bucket_notifications bucket
  end.

Definition topic_notifications (sm : subscriptionManager)
    (topic : SubscriptionTopic) : list Effect :=
  match nonPathSubscriptions sm !! topic with
  | None => []
  | Some bucket => bucket_notifications bucket
  end.

Definition all_path_notifications (sm : subscriptionManager) : list Effect :=
  mjoin ((λ kv, bucket_notifications kv.2)
           <$> map_to_list (pathSubscriptions sm)).

(** Subscription [sid] with delivery [dn] is stored under path key [ref],
    or under non-path topic [topic]. *)
Definition keyed_at (sm : subscriptionManager) (ref : pathSubscriptionRef)
    (sid : SubscriptionID) (dn : debouncedNotify) : Prop :=
  ∃ bucket, pathSubscriptions sm !! ref = Some bucket ∧ bucket !! sid = Some dn.

Definition keyed_at_topic (sm : subscriptionManager) (topic : SubscriptionTopic)
    (sid : SubscriptionID) (dn : debouncedNotify) : Prop :=
  ∃ bucket,
    nonPathSubscriptions sm !! topic = Some bucket ∧ bucket !! sid = Some dn.

(** The number of distinct SIDs of path subscriptions in container [fb]. *)
Definition active_path_sids (sm : subscriptionManager) (fb : FolderBranch)
  : nat :=
  size (filter (λ kv, folderBranch kv.2 = fb) (pathSubscriptionIDToRef sm)).

(** Whether the change source holds a registration for [fb] after the calls
    recorded in [es]. *)
Definition registered (fb : FolderBranch) (es : list Effect) : bool :=
  foldl (λ b e,
           match e with
           | RegisterForChanges fb' => if decide (fb' = fb) then true else b
           | UnregisterFromChanges fb' => if decide (fb' = fb) then false else b
           | _ => b
           end) false es.

Definition registration_calls (fb : FolderBranch) (es : list Effect)
  : list Effect :=
  filter (λ e, e = RegisterForChanges fb ∨ e = UnregisterFromChanges fb) es.

(** ** Invariants *)

(** The invariants of the data model: the path index and its reverse index
    agree, no path bucket is empty, the topic index and its reverse index
    agree, and the active SIDs are those of the two reverse indices, which
    share no SID. *)
Record wf_manager (sm : subscriptionManager) : Prop := mk_wf_manager {
  wf_path_fwd : ∀ sid ref,
    pathSubscriptionIDToRef sm !! sid = Some ref → ∃ dn, keyed_at sm ref sid dn;
  wf_path_bwd : ∀ ref sid dn,
    keyed_at sm ref sid dn → pathSubscriptionIDToRef sm !! sid = Some ref;
  wf_buckets : ∀ ref, pathSubscriptions sm !! ref ≠ Some ∅;
  wf_topic_fwd : ∀ sid topic,
    nonPathSubscriptionIDToTopic sm !! sid = Some topic →
    ∃ dn, keyed_at_topic sm topic sid dn;
  wf_topic_bwd : ∀ topic sid dn,
    keyed_at_topic sm topic sid dn →
    nonPathSubscriptionIDToTopic sm !! sid = Some topic;
  wf_active : ∀ sid,
    bool_at (subscriptionIDs sm) sid = true
    ↔ is_Some (pathSubscriptionIDToRef sm !! sid) ∨
      is_Some (nonPathSubscriptionIDToTopic sm !! sid);
  wf_active_true : ∀ sid b, subscriptionIDs sm !! sid = Some b → b = true;
  wf_exclusive : ∀ sid,
    is_Some (pathSubscriptionIDToRef sm !! sid) →
    nonPathSubscriptionIDToTopic sm !! sid = None;
}.

(** No subscription of either kind is left in the manager. *)
Definition no_subscriptions (sm : subscriptionManager) : Prop :=
  pathSubscriptions sm = ∅ ∧
  pathSubscriptionIDToRef sm = ∅ ∧
  (∀ topic bucket, nonPathSubscriptions sm !! topic = Some bucket → bucket = ∅) ∧
  nonPathSubscriptionIDToTopic sm = ∅ ∧
  subscriptionIDs sm = ∅.

Definition empty_manager (cid : SubscriptionManagerClientID)
  : subscriptionManager :=
  mkSM cid ∅ ∅ ∅ ∅ ∅ ∅.

(** The invariants of a registry: every registered client has a consistent
    manager in the heap, no two clients share one, the heap grows at
    [next_loc], and the queue of purgeable clients holds registered clients,
    each once, and at most [maxPurgeableSubscriptionManagerClient] of
    them. *)
Record wf_registry (r : Registry) : Prop := mk_wf_registry {
  wf_objects : ∀ cid l,
    subscriptionManagers (smm r) !! cid = Some l →
    ∃ sm, objects (heap r) !! l = Some sm ∧ wf_manager sm;
  wf_fresh : ∀ l,
    is_Some (objects (heap r) !! l) → (l < next_loc (heap r))%nat;
  wf_distinct : ∀ c1 c2 l,
    subscriptionManagers (smm r) !! c1 = Some l →
    subscriptionManagers (smm r) !! c2 = Some l → c1 = c2;
  wf_fifo_registered : ∀ cid,
    cid ∈ purgeableClientIDsFIFO (smm r) →
    is_Some (subscriptionManagers (smm r) !! cid);
  wf_fifo_nodup : NoDup (purgeableClientIDsFIFO (smm r));
  wf_fifo_bound :
    (List.length (purgeableClientIDsFIFO (smm r))
     ≤ maxPurgeableSubscriptionManagerClient)%nat;
}.

(** ** The wording of the specification where the code departs from it *)

(** The claim of C2 as it is worded: whatever the arguments, subscribing
    with an active SID fails with the duplicate error. *)
Definition duplicate_always_fails : Prop :=
  ∀ cfg sid p topic d n sm w,
    bool_at (subscriptionIDs sm) sid = true →
    (subscribePath cfg sid p topic d n sm w).1.1
    = Some (ErrDuplicateSubscriptionID sid).

(** The claim of C3 with the parent of the specification: the subscriptions
    notified by a change at [p] are those keyed by [p] and those keyed by
    the path one component up. *)
Definition notifies_exact_and_spec_parent : Prop :=
  ∀ sm w fb p e,
    e ∈ emitted w (nodeChangeLocked (mkNode fb (Some p)) sm w)
    ↔ ∃ sid dn,
        e = Notify (dn_id dn) ∧
        (keyed_at sm (mkRef fb p) sid dn ∨
         ∃ q, Paths.spec_parent p = Some q ∧ keyed_at sm (mkRef fb q) sid dn).

(** The claim of C5 for the caller: once [shutdown] was called, [notify]
    returns and nothing is fired by it. *)
Definition notify_after_shutdown_returns : Prop :=
  ∀ limit st,
    Debounce.reachable limit st →
    Debounce.cancelled st = true →
    ∃ st', Debounce.notify st = Some st' ∧ Debounce.log st' = Debounce.log st.

(** ** Scenarios *)

(** A container that exists. *)
Definition testFB : FolderBranch := mkFolderBranch "tlf-alice" "master".

(** A resolver for the examples: the empty path does not parse, a path
    under [/nonexistent] has no container yet, every other path lies in
    [testFB] and is already clean. *)
Definition testConfig : Config :=
  mkConfig
    (λ p, if String.eqb p "" then inl "empty path" else inr (mkParsedPath p))
    (λ pp, if String.prefix "/nonexistent" (rawInTlfPath pp)
           then inr zeroFolderBranch else inr testFB)
    (λ s, s).

(** The resolver of the examples with a folder the user may not read: the
    lookup of the container fails for every path under [/restricted]. *)
Definition guardedConfig : Config :=
  mkConfig
    (parsePath testConfig)
    (λ pp, if String.prefix "/restricted" (rawInTlfPath pp)
           then inl "no access to the folder"
           else getFolderBranch testConfig pp)
    (path_Clean testConfig).

(** The manager of a client that has not subscribed yet. *)
Definition testManager : subscriptionManager :=
  (newSubscriptionManager "gui" newWorld).1.

(** A manager on which [s1] was subscribed to [/a] and then removed. *)
Definition subscribed_once : subscriptionManager * World :=
  after (subscribePath testConfig "s1" "/a" 0 None 7%nat testManager newWorld).

(** The same manager after [s1] was removed again. *)
Definition removed_again : subscriptionManager * World :=
  unsubscribePath "s1" subscribed_once.1 subscribed_once.2.

(** Two subscriptions on different paths of one container: one registration
    when the first is made, one unregistration when the second is removed. *)
Definition two_paths_one_container : list PathOp :=
  [OpSubscribePath "a" "/x" 0 None 1%nat;
   OpSubscribePath "b" "/y" 0 None 2%nat;
   OpUnsubscribePath "a"].

(** Two subscriptions on the same path, both removed again. *)
Definition same_path_twice : list PathOp :=
  [OpSubscribePath "a" "/x" 0 None 1%nat;
   OpSubscribePath "b" "/x" 0 None 2%nat;
   OpUnsubscribePath "a";
   OpUnsubscribePath "b"].

(** A manager whose only subscription is keyed by the root of [testFB]. *)
Definition root_subscriber : subscriptionManager * World :=
  after (subscribePath testConfig "root" "/" 0 None 1%nat testManager newWorld).

(** Subscribers of [/a/b/c], [/a/b], [/a] and [/a/b/c/d] in one container. *)
Definition four_levels : subscriptionManager * World :=
  run_ops testConfig
    [OpSubscribePath "exact" "/a/b/c" 0 None 1%nat;
     OpSubscribePath "parent" "/a/b" 0 None 1%nat;
     OpSubscribePath "grandparent" "/a" 0 None 1%nat;
     OpSubscribePath "child" "/a/b/c/d" 0 None 1%nat]
    (testManager, newWorld).

(** A root subscriber and a subscriber of the directory [/a]. *)
Definition root_and_dir : subscriptionManager * World :=
  run_ops testConfig
    [OpSubscribePath "root" "/" 0 None 1%nat;
     OpSubscribePath "dir" "/a" 0 None 1%nat]
    (testManager, newWorld).

(** Two path subscriptions with different topics and two non-path
    subscriptions, one of them to the overall sync status. *)
Definition mixed_subscriptions : subscriptionManager * World :=
  let s := run_ops testConfig
             [OpSubscribePath "p1" "/a" 0 None 1%nat;
              OpSubscribePath "p2" "/b/c" 1 (Some 100) 1%nat]
             (testManager, newWorld) in
  let s := after (subscribeNonPath "n1" SubscriptionTopic_OVERALL_SYNC_STATUS
                                   None 1%nat s.1 s.2) in
  after (subscribeNonPath "n2" SubscriptionTopic_ONLINE_STATUS
                          None 1%nat s.1 s.2).



(** A notification is pending and the goroutine stands in the [select] when
    [shutdown] is called. *)
Definition shutdown_while_pending : list Debounce.action :=
  [Debounce.TaskStep true; Debounce.CallNotify; Debounce.CallShutdown].

(** The state [shutdown_while_pending] ends in. *)
Definition pending_at_shutdown : Debounce.state :=
  Debounce.mkState false 1 true Debounce.AtSelect [Debounce.Granted].

(** Three purgeable clients and one that is not; the first purgeable
    client holds a path and a non-path subscription. *)
Definition fill_registry : list RegistryOp :=
  [DoGet "a" true;
   DoSubscribePath 0 testConfig "s1" "/x" 0 None 1%nat;
   DoSubscribeNonPath 0 "s2" SubscriptionTopic_ONLINE_STATUS None 1%nat;
   DoGet "b" true;
   DoGet "prefetcher" false;
   DoGet "c" true].

(** The registry [fill_registry] builds. *)
Definition full_registry : Registry :=
  default newRegistry (registry_run fill_registry newRegistry).

(** ** The rest of the manager and of the registry *)

(** [func (sm) notifyOnlineStatus()], the callback the manager hands to its
    online status tracker. *)
Definition notifyOnlineStatus (sm : subscriptionManager) (w : World) : World :=
  match nonPathSubscriptions sm !! SubscriptionTopic_ONLINE_STATUS with
  | None => w
  | Some bucket => notifyBucket bucket w
  end.

(** [func (s subscriber) SubscribePath(ctx, sid, path, topic,
    deduplicateInterval) error]; the subscriber carries the manager and the
    notifier. *)
Definition SubscribePath (cfg : Config) (notifier : nat) (sid : SubscriptionID)
    (p : string) (topic : PathSubscriptionTopic)
    (deduplicateInterval : option Z) (sm : subscriptionManager) (w : World)
  : option error * subscriptionManager * World :=
  subscribePath cfg sid p topic deduplicateInterval notifier sm w.

(** [func (s subscriber) SubscribeNonPath(ctx, sid, topic,
    deduplicateInterval) error] *)
Definition SubscribeNonPath (notifier : nat) (sid : SubscriptionID)
    (topic : SubscriptionTopic) (deduplicateInterval : option Z)
    (sm : subscriptionManager) (w : World)
  : option error * subscriptionManager * World :=
  subscribeNonPath sid topic deduplicateInterval notifier sm w.

(** [sm.PublishChange(topic)] through a pointer; [None] is the panic of a
    nil (or dangling) receiver. *)
Definition PublishChange_at (l : nat) (topic : SubscriptionTopic) (h : Heap)
    (w : World) : option World :=
  sm ← objects h !! l;
  Some (PublishChange topic sm w).

(** [func (smm) PublishChange(topic keybase1.SubscriptionTopic)] *)
Definition smm_PublishChange (topic : SubscriptionTopic) (r : Registry)
  : option Registry :=
  w ← foldl (λ acc kv, w ← acc; PublishChange_at kv.2 topic (heap r) w)
            (Some (world r))
            (map_to_list (subscriptionManagers (smm r)));
  Some (mkRegistry (smm r) (heap r) w).

(** [func (smm) Shutdown(ctx)] *)
Definition smm_Shutdown (r : Registry) : option Registry :=
  s ← foldl (λ acc kv, s ← acc; Shutdown_at (Some kv.2) s.1 s.2)
            (Some (heap r, world r))
            (map_to_list (subscriptionManagers (smm r)));
  Some (mkRegistry (mkSMM ∅ []) s.1 s.2).

(** The operations of one manager, and a sequence of them. *)
Inductive ManagerOp :=
| MSubscribePath (cfg : Config) (notifier : nat) (sid : SubscriptionID)
    (p : string) (topic : PathSubscriptionTopic)
    (deduplicateInterval : option Z)
| MSubscribeNonPath (notifier : nat) (sid : SubscriptionID)
    (topic : SubscriptionTopic) (deduplicateInterval : option Z)
| MUnsubscribePath (sid : SubscriptionID)
| MUnsubscribeNonPath (sid : SubscriptionID)
| MUnsubscribe (sid : SubscriptionID).

Definition manager_step (s : subscriptionManager * World) (op : ManagerOp)
  : subscriptionManager * World :=
  match op with
  | MSubscribePath cfg n sid p topic d =>
      after (SubscribePath cfg n sid p topic d s.1 s.2)
  | MSubscribeNonPath n sid topic d =>
      after (SubscribeNonPath n sid topic d s.1 s.2)
  | MUnsubscribePath sid => unsubscribePath sid s.1 s.2
  | MUnsubscribeNonPath sid => unsubscribeNonPath sid s.1 s.2
  | MUnsubscribe sid => Unsubscribe sid s.1 s.2
  end.

Definition manager_run (ops : list ManagerOp)
    (s : subscriptionManager * World) : subscriptionManager * World :=
  foldl manager_step s ops.

(** The notifications of one change event. *)
Definition change_notifications (sm : subscriptionManager) (node : Node)
  : list Effect :=
  match GetPathPlaintextSansTlf node with
  | None => []
  | Some p =>
      ref_notifications sm (mkRef (GetFolderBranch node) p)
      ++ match Paths.getParentPath p with
         | (parent, true) =>
             ref_notifications sm (mkRef (GetFolderBranch node) parent)
         | (_, false) => []
         end
  end.

(** The number of path buckets of container [fb]. *)
Definition buckets_in (sm : subscriptionManager) (fb : FolderBranch) : nat :=
  size (filter (λ kv, folderBranch kv.1 = fb) (pathSubscriptions sm)).

(** The values of a Go [int]. *)
Definition is_int (z : Z) : Prop := - 2 ^ 63 ≤ z < 2 ^ 63.

#[global] Instance action_eq_dec : EqDecision Debounce.action.
Proof. solve_decision. Defined.

(** The number of [notify] calls of a schedule, and of callbacks in a log. *)
Definition count_notify (acts : list Debounce.action) : nat :=
  List.length (filter (λ a, a = Debounce.CallNotify) acts).

Definition count_fired (l : list Debounce.event) : nat :=
  List.length (filter (λ e, e = Debounce.Fired) l).

(** * Properties *)

(** ** Unsubscribing *)

Section unsubscribe.
Variables (sid : SubscriptionID) (sm : subscriptionManager) (w : World).

Lemma unsubscribePath_absent :
  pathSubscriptionIDToRef sm !! sid = None →
  unsubscribePath sid sm w = (sm, w).
Proof. intros H. unfold unsubscribePath. by rewrite H. Qed.

Lemma unsubscribeNonPath_absent :
  nonPathSubscriptionIDToTopic sm !! sid = None →
  unsubscribeNonPath sid sm w = (sm, w).
Proof. intros H. unfold unsubscribeNonPath. by rewrite H. Qed.

Lemma unsubscribePath_removes :
  pathSubscriptionIDToRef (unsubscribePath sid sm w).1 !! sid = None.
Proof.
  unfold unsubscribePath.
  destruct (pathSubscriptionIDToRef sm !! sid) as [ref|] eqn:E; [|done].
  cbn. destruct (pathSubscriptions sm !! ref) as [bucket|]; cbn;
    [|apply lookup_delete_eq].
  destruct (bucket !! sid); cbn; case_decide; cbn;
    try (destruct (unregisterForChangesLocked _ _ _) as [sm' w'] eqn:U;
         unfold unregisterForChangesLocked in U; cbn in U;
         case_match; inversion U; subst; cbn);
    apply lookup_delete_eq.
Qed.

Lemma unsubscribeNonPath_removes :
  nonPathSubscriptionIDToTopic (unsubscribeNonPath sid sm w).1 !! sid = None.
Proof.
  unfold unsubscribeNonPath.
  destruct (nonPathSubscriptionIDToTopic sm !! sid) as [t|] eqn:E; [|done].
  cbn. destruct (nonPathSubscriptions sm !! t) as [bucket|]; cbn;
    [|apply lookup_delete_eq].
  destruct (bucket !! sid); cbn; apply lookup_delete_eq.
Qed.

Lemma unsubscribeNonPath_keeps_path_index :
  pathSubscriptionIDToRef (unsubscribeNonPath sid sm w).1
  = pathSubscriptionIDToRef sm.
Proof.
  unfold unsubscribeNonPath.
  destruct (nonPathSubscriptionIDToTopic sm !! sid) as [t|]; [|done].
  cbn. destruct (nonPathSubscriptions sm !! t) as [bucket|]; cbn; [|done].
  by destruct (bucket !! sid).
Qed.

End unsubscribe.

(** C9.  Unsubscribing a SID that is absent from the index an operation
    works on changes neither the manager nor the world, for
    [unsubscribePath], for [unsubscribeNonPath] and for the [Unsubscribe]
    facade that calls both; none of the three has an error result.  Hence
    each is idempotent: a second call with the same SID changes nothing. *)
Theorem unsubscribe_inactive_is_noop
    (sid : SubscriptionID) (sm : subscriptionManager) (w : World) :
  (pathSubscriptionIDToRef sm !! sid = None →
   unsubscribePath sid sm w = (sm, w)) ∧
  (nonPathSubscriptionIDToTopic sm !! sid = None →
   unsubscribeNonPath sid sm w = (sm, w)) ∧
  (pathSubscriptionIDToRef sm !! sid = None →
   nonPathSubscriptionIDToTopic sm !! sid = None →
   Unsubscribe sid sm w = (sm, w)) ∧
  (∀ s, s = unsubscribePath sid sm w → unsubscribePath sid s.1 s.2 = s) ∧
  (∀ s, s = unsubscribeNonPath sid sm w → unsubscribeNonPath sid s.1 s.2 = s) ∧
  (∀ s, s = Unsubscribe sid sm w → Unsubscribe sid s.1 s.2 = s).
Proof.
  repeat split.
  - apply unsubscribePath_absent.
  - apply unsubscribeNonPath_absent.
  - intros Hp Hn. unfold Unsubscribe.
    rewrite unsubscribePath_absent by done.
    by apply unsubscribeNonPath_absent.
  - intros s ->. rewrite unsubscribePath_absent.
    + by destruct (unsubscribePath sid sm w).
    + apply unsubscribePath_removes.
  - intros s ->. rewrite unsubscribeNonPath_absent.
    + by destruct (unsubscribeNonPath sid sm w).
    + apply unsubscribeNonPath_removes.
  - intros s ->.
    destruct (Unsubscribe sid sm w) as [sm2 w2] eqn:E.
    unfold Unsubscribe in E.
    destruct (unsubscribePath sid sm w) as [sm1 w1] eqn:E1.
    assert (Hp : pathSubscriptionIDToRef sm2 !! sid = None).
    { replace sm2 with (unsubscribeNonPath sid sm1 w1).1 by by rewrite E.
      rewrite unsubscribeNonPath_keeps_path_index.
      replace sm1 with (unsubscribePath sid sm w).1 by by rewrite E1.
      apply unsubscribePath_removes. }
    assert (Hn : nonPathSubscriptionIDToTopic sm2 !! sid = None).
    { replace sm2 with (unsubscribeNonPath sid sm1 w1).1 by by rewrite E.
      apply unsubscribeNonPath_removes. }
    unfold Unsubscribe. cbn.
    rewrite unsubscribePath_absent by done.
    by apply unsubscribeNonPath_absent.
Qed.

Lemma unsubscribe_inactive_is_noop_witness :
  pathSubscriptionIDToRef removed_again.1 !! "s1" = None ∧
  nonPathSubscriptionIDToTopic removed_again.1 !! "s1" = None ∧
  unsubscribePath "s1" removed_again.1 removed_again.2 = removed_again ∧
  unsubscribeNonPath "s1" removed_again.1 removed_again.2 = removed_again ∧
  Unsubscribe "s1" removed_again.1 removed_again.2 = removed_again.
Proof.
  assert (Hp : pathSubscriptionIDToRef removed_again.1 !! "s1" = None)
    by (vm_compute; reflexivity).
  assert (Hn : nonPathSubscriptionIDToTopic removed_again.1 !! "s1" = None)
    by (vm_compute; reflexivity).
  destruct (unsubscribe_inactive_is_noop "s1" removed_again.1 removed_again.2)
    as (H1 & H2 & H3 & _).
  split; [exact Hp|]. split; [exact Hn|].
  rewrite (H1 Hp), (H2 Hn), (H3 Hp Hn).
  by destruct removed_again.
Defined.

(** ** Subscribing *)

(** C8.  When the path of a [subscribePath] call parses and its container
    resolves to the zero [FolderBranch], the call returns the nil error and
    leaves the manager and the world as they were: no subscription, no
    active SID, no registration and no reference count is created. *)
Theorem subscribePath_unresolved_container_is_noop
    (cfg : Config) (sid : SubscriptionID) (p : string)
    (topic : PathSubscriptionTopic) (deduplicateInterval : option Z)
    (notifier : nat) (sm : subscriptionManager) (w : World)
    (parsed : parsedPath) :
  parsePath cfg p = inr parsed →
  getFolderBranch cfg parsed = inr zeroFolderBranch →
  subscribePath cfg sid p topic deduplicateInterval notifier sm w
  = (None, sm, w).
Proof.
  intros Hparse Hfb. unfold subscribePath. rewrite Hparse, Hfb.
  by rewrite decide_True.
Qed.

Lemma subscribePath_unresolved_container_is_noop_witness :
  subscribePath testConfig "s1" "/nonexistent/x" 0 (Some 100) 7%nat
                testManager newWorld
  = (None, testManager, newWorld) ∧
  bool_at (subscriptionIDs testManager) "s1" = false.
Proof.
  split; [|reflexivity].
  apply (subscribePath_unresolved_container_is_noop
           testConfig "s1" "/nonexistent/x" 0 (Some 100) 7%nat
           testManager newWorld (mkParsedPath "/nonexistent/x"));
    reflexivity.
Defined.

Lemma checkSubscriptionIDLocked_active sid sm :
  bool_at (subscriptionIDs sm) sid = true →
  checkSubscriptionIDLocked sid sm = inl (ErrDuplicateSubscriptionID sid).
Proof. intros H. unfold checkSubscriptionIDLocked. by rewrite H. Qed.

(** A successful subscription makes its SID active. *)
Lemma subscribeNonPath_activates sid topic d n sm w :
  bool_at (subscriptionIDs sm) sid = false →
  bool_at (subscriptionIDs
             (after (subscribeNonPath sid topic d n sm w)).1) sid = true.
Proof.
  intros H. unfold subscribeNonPath, checkSubscriptionIDLocked. rewrite H.
  unfold bool_at. cbn. destruct (nonPathSubscriptions sm !! topic); cbn;
    by rewrite lookup_insert_eq.
Qed.

Lemma subscribePath_activates cfg sid p topic d n sm w parsed fb :
  parsePath cfg p = inr parsed →
  getFolderBranch cfg parsed = inr fb →
  fb ≠ zeroFolderBranch →
  bool_at (subscriptionIDs sm) sid = false →
  bool_at (subscriptionIDs
             (after (subscribePath cfg sid p topic d n sm w)).1) sid = true.
Proof.
  intros Hp Hfb Hz H. unfold subscribePath, checkSubscriptionIDLocked.
  rewrite Hp, Hfb, decide_False, H by done.
  unfold bool_at, registerForChangesLocked. cbn.
  destruct (pathSubscriptions sm !! _); cbn; by rewrite lookup_insert_eq.
Qed.

(** [s1] is active, its path lies in a container that does not exist yet:
    the second [subscribePath] returns nil. *)
Lemma duplicate_sid_unresolved_container_returns_nil :
  bool_at (subscriptionIDs subscribed_once.1) "s1" = true ∧
  subscribePath testConfig "s1" "/nonexistent/x" 0 None 7%nat
                subscribed_once.1 subscribed_once.2
  = (None, subscribed_once.1, subscribed_once.2) ∧
  ¬ duplicate_always_fails.
Proof.
  assert (Ha : bool_at (subscriptionIDs subscribed_once.1) "s1" = true)
    by (vm_compute; reflexivity).
  assert (Hr : subscribePath testConfig "s1" "/nonexistent/x" 0 None 7%nat
                 subscribed_once.1 subscribed_once.2
               = (None, subscribed_once.1, subscribed_once.2)).
  { by vm_compute. }
  split; [exact Ha|]. split; [exact Hr|].
  intros Hclaim.
  specialize (Hclaim testConfig "s1" "/nonexistent/x" 0 None 7%nat
                     subscribed_once.1 subscribed_once.2 Ha).
  rewrite Hr in Hclaim. discriminate.
Qed.

(** C2, amended.  With an active SID, [subscribeNonPath] fails with the
    duplicate error, and so does [subscribePath] when its path resolves to an
    existing container.  Resolution runs before the SID check: when
    [parsePath] or [getFolderBranch] fails, [subscribePath] returns that
    error of the resolver, and when the container is unresolved (the zero
    [FolderBranch]) it returns nil.  Whatever [subscribePath] returns, the
    manager and the world are unchanged by the call. *)
Theorem duplicate_subscription_rejected
    (cfg : Config) (sid : SubscriptionID) (sm : subscriptionManager)
    (w : World) :
  bool_at (subscriptionIDs sm) sid = true →
  (∀ topic d n,
     subscribeNonPath sid topic d n sm w
     = (Some (ErrDuplicateSubscriptionID sid), sm, w)) ∧
  (∀ p topic d n parsed fb,
     parsePath cfg p = inr parsed →
     getFolderBranch cfg parsed = inr fb →
     fb ≠ zeroFolderBranch →
     subscribePath cfg sid p topic d n sm w
     = (Some (ErrDuplicateSubscriptionID sid), sm, w)) ∧
  (∀ p topic d n err,
     parsePath cfg p = inl err →
     subscribePath cfg sid p topic d n sm w = (Some (ErrResolve err), sm, w)) ∧
  (∀ p topic d n parsed err,
     parsePath cfg p = inr parsed →
     getFolderBranch cfg parsed = inl err →
     subscribePath cfg sid p topic d n sm w = (Some (ErrResolve err), sm, w)) ∧
  (∀ p topic d n parsed,
     parsePath cfg p = inr parsed →
     getFolderBranch cfg parsed = inr zeroFolderBranch →
     subscribePath cfg sid p topic d n sm w = (None, sm, w)) ∧
  (∀ p topic d n,
     after (subscribePath cfg sid p topic d n sm w) = (sm, w)).
Proof.
  intros Ha. split; [|split; [|split; [|split; [|split]]]].
  - intros. unfold subscribeNonPath.
    by rewrite checkSubscriptionIDLocked_active.
  - intros p topic d n parsed fb Hp Hfb Hz. unfold subscribePath.
    rewrite Hp, Hfb, decide_False by done.
    by rewrite checkSubscriptionIDLocked_active.
  - intros p topic d n err Hp. unfold subscribePath. by rewrite Hp.
  - intros p topic d n parsed err Hp Hfb. unfold subscribePath.
    by rewrite Hp, Hfb.
  - intros p topic d n parsed Hp Hfb. unfold subscribePath.
    by rewrite Hp, Hfb, decide_True.
  - intros p topic d n. unfold subscribePath.
    destruct (parsePath cfg p) as [e|parsed]; [done|].
    destruct (getFolderBranch cfg parsed) as [e|fb]; [done|].
    case_decide; [done|].
    by rewrite checkSubscriptionIDLocked_active.
Qed.

Lemma duplicate_subscription_rejected_witness :
  bool_at (subscriptionIDs subscribed_once.1) "s1" = true ∧
  subscribeNonPath "s1" SubscriptionTopic_ONLINE_STATUS None 7%nat
                   subscribed_once.1 subscribed_once.2
  = (Some (ErrDuplicateSubscriptionID "s1"),
     subscribed_once.1, subscribed_once.2) ∧
  subscribePath guardedConfig "s1" "/b" 1 (Some 100) 8%nat
                subscribed_once.1 subscribed_once.2
  = (Some (ErrDuplicateSubscriptionID "s1"),
     subscribed_once.1, subscribed_once.2) ∧
  subscribePath guardedConfig "s1" "" 0 None 8%nat
                subscribed_once.1 subscribed_once.2
  = (Some (ErrResolve "empty path"), subscribed_once.1, subscribed_once.2) ∧
  subscribePath guardedConfig "s1" "/restricted/x" 0 None 8%nat
                subscribed_once.1 subscribed_once.2
  = (Some (ErrResolve "no access to the folder"),
     subscribed_once.1, subscribed_once.2) ∧
  subscribePath guardedConfig "s1" "/nonexistent/x" 0 None 8%nat
                subscribed_once.1 subscribed_once.2
  = (None, subscribed_once.1, subscribed_once.2).
Proof.
  assert (Ha : bool_at (subscriptionIDs subscribed_once.1) "s1" = true)
    by (vm_compute; reflexivity).
  destruct (duplicate_subscription_rejected
              guardedConfig "s1" subscribed_once.1 subscribed_once.2 Ha)
    as (Hn & Hp & Hparse & Hfb & Hzero & _).
  split; [exact Ha|]. split; [apply Hn|].
  split; [|split; [|split]].
  - apply (Hp "/b" 1 (Some 100) 8%nat (mkParsedPath "/b") testFB);
      [reflexivity | reflexivity | discriminate].
  - apply (Hparse "" 0 None 8%nat "empty path"). reflexivity.
  - apply (Hfb "/restricted/x" 0 None 8%nat (mkParsedPath "/restricted/x")
               "no access to the folder"); reflexivity.
  - apply (Hzero "/nonexistent/x" 0 None 8%nat
                 (mkParsedPath "/nonexistent/x")); reflexivity.
Defined.

(** ** Reference counting of container registrations *)

Example two_paths_register_once :
  let s := run_ops testConfig two_paths_one_container (testManager, newWorld) in
  let s' := apply_op testConfig s (OpUnsubscribePath "b") in
  registration_calls testFB (effects s.2) = [RegisterForChanges testFB] ∧
  int_at (subscriptionCountByFolderBranch s.1) testFB = 1 ∧
  active_path_sids s.1 testFB = 1%nat ∧
  registration_calls testFB (effects s'.2)
  = [RegisterForChanges testFB; UnregisterFromChanges testFB] ∧
  int_at (subscriptionCountByFolderBranch s'.1) testFB = 0 ∧
  active_path_sids s'.1 testFB = 0%nat.
Proof. vm_compute. by repeat split. Qed.

(** C1, at the input where the code departs from it.  [subscribePath] counts
    one reference per SID, [unsubscribePath] releases one per emptied bucket:
    after two subscriptions to one path are both removed no path
    subscription is left, yet the count of the container is 1, no
    [UnregisterFromChanges] was issued and the registration stays. *)
Theorem same_path_refcount_leaks :
  let s := run_ops testConfig same_path_twice (testManager, newWorld) in
  pathSubscriptionIDToRef s.1 = ∅ ∧
  pathSubscriptions s.1 = ∅ ∧
  active_path_sids s.1 testFB = 0%nat ∧
  int_at (subscriptionCountByFolderBranch s.1) testFB = 1 ∧
  registration_calls testFB (effects s.2) = [RegisterForChanges testFB] ∧
  registered testFB (effects s.2) = true.
Proof. vm_compute. by repeat split. Qed.

(** ** Facts about the path helpers *)

Module PathFacts.
Import Paths.

(** The scan either keeps its accumulator (no occurrence) or returns the
    start index plus the offset of the last occurrence. *)
Lemma LastIndexByte_from_shape (c : ascii) (s : string) :
  ∀ i acc,
    (LastIndexByte_from s c i acc = acc ∧ LastIndexByte_from s c 0 (-1) = -1)
    ∨ (∃ k, 0 ≤ k < Z.of_nat (String.length s) ∧
            LastIndexByte_from s c i acc = i + k ∧
            LastIndexByte_from s c 0 (-1) = k).
Proof.
  induction s as [|a s IH]; intros i acc; [by left|].
  cbn [LastIndexByte_from String.length].
  destruct (IH (i + 1) (if Ascii.eqb a c then i else acc))
    as [[E1 E0]|(k & Hk & E1 & E0)];
    destruct (IH (0 + 1) (if Ascii.eqb a c then 0 else -1))
    as [[F1 F0]|(k' & Hk' & F1 & F0)]; try lia.
  - rewrite E1, F1. destruct (Ascii.eqb a c).
    + right. exists 0. lia.
    + by left.
  - rewrite E1, F1. right. exists (1 + k). lia.
Qed.

Lemma LastIndexByte_from_absent c s i acc :
  LastIndexByte s c = -1 → LastIndexByte_from s c i acc = acc.
Proof.
  unfold LastIndexByte. intros H.
  destruct (LastIndexByte_from_shape c s i acc) as [[E _]|(k & Hk & _ & E)];
    [done | lia].
Qed.

Lemma LastIndexByte_from_app c s1 s2 :
  ∀ i acc,
    LastIndexByte_from (s1 +:+ s2) c i acc
    = LastIndexByte_from s2 c (i + Z.of_nat (String.length s1))
                         (LastIndexByte_from s1 c i acc).
Proof.
  induction s1 as [|a s1 IH]; intros i acc.
  - change ("" +:+ s2) with s2. cbn. f_equal. lia.
  - change (String a s1 +:+ s2) with (String a (s1 +:+ s2)).
    cbn [LastIndexByte_from String.length]. rewrite IH. f_equal. lia.
Qed.

(** The last separator of [d/name] is the one written between them. *)
Lemma LastIndexByte_child d name :
  component name →
  LastIndexByte (d +:+ String slash name) slash = Z.of_nat (String.length d).
Proof.
  intros Hn. unfold LastIndexByte.
  rewrite LastIndexByte_from_app. cbn [LastIndexByte_from].
  rewrite LastIndexByte_from_absent by done.
  by rewrite Ascii.eqb_refl.
Qed.

Lemma substring_app_length s1 s2 :
  substring 0 (String.length s1) (s1 +:+ s2) = s1.
Proof.
  induction s1 as [|a s1 IH].
  - change ("" +:+ s2) with s2. by destruct s2.
  - change (String a s1 +:+ s2) with (String a (s1 +:+ s2)).
    cbn [String.length substring]. by rewrite IH.
Qed.

(** A path below the root has no parent for [getParentPath]. *)
Lemma getParentPath_top_level p :
  only_leading_slash p → getParentPath p = ("", false).
Proof. unfold only_leading_slash, getParentPath. by intros ->. Qed.

Lemma getParentPath_child d name :
  d ≠ "" → component name →
  getParentPath (d +:+ String slash name) = (d, true).
Proof.
  intros Hd Hn. unfold getParentPath.
  rewrite LastIndexByte_child by done.
  destruct d as [|a d]; [done|].
  rewrite (proj2 (Z.leb_gt _ _)) by (cbn [String.length]; lia).
  by rewrite Nat2Z.id, substring_app_length.
Qed.

(** Only a path that starts with two separators, which no clean path
    does, has the root as its [getParentPath]. *)
Lemma getParentPath_root p :
  getParentPath p = ("/", true) → String.prefix "//" p = true.
Proof.
  unfold getParentPath. destruct (LastIndexByte p slash <=? 0) eqn:E;
    [done|]. intros [= H].
  apply Z.leb_gt in E.
  destruct (Z.to_nat (LastIndexByte p slash)) as [|n] eqn:En; [lia|].
  destruct p as [|a [|b r]]; [done| |].
  - unfold LastIndexByte in E. cbn [LastIndexByte_from] in E.
    destruct (Ascii.eqb a slash); lia.
  - cbn in H. injection H as -> Hs.
    destruct n; [|done].
    assert (Hi : LastIndexByte (String "/" (String b r)) slash = 1) by lia.
    unfold LastIndexByte in Hi. cbn [LastIndexByte_from] in Hi.
    destruct (Ascii.eqb b slash) eqn:Eb.
    + apply Ascii.eqb_eq in Eb as ->. cbn. by destruct r.
    + exfalso. cbn in Hi.
      destruct (LastIndexByte_from_shape slash r (0 + 1 + 1) 0)
        as [[E1 _]|(k & ? & E1 & _)];
        rewrite E1 in Hi; lia.
Qed.

(** Where [getParentPath] finds a parent, it is the parent of the spec. *)
Lemma getParentPath_spec_parent p q :
  getParentPath p = (q, true) → spec_parent p = Some q.
Proof.
  unfold getParentPath, spec_parent.
  destruct (LastIndexByte p slash <=? 0) eqn:E; [done|]. intros [= <-].
  apply Z.leb_gt in E.
  destruct (String.eqb p "/") eqn:Ep.
  - apply String.eqb_eq in Ep. subst p. by vm_compute in E.
  - rewrite (proj2 (Z.ltb_ge _ _)) by lia.
    by rewrite (proj2 (Z.eqb_neq _ _)) by lia.
Qed.

End PathFacts.

(** ** Who is notified *)

Section notifications.
Implicit Types (sm : subscriptionManager) (w : World) (e : Effect).

Lemma emitted_app w w' es :
  effects w' = effects w ++ es → emitted w w' = es.
Proof. intros H. unfold emitted. by rewrite H, drop_app_length. Qed.

Lemma notifyBucket_effects bucket w :
  effects (notifyBucket bucket w) = effects w ++ bucket_notifications bucket.
Proof.
  unfold notifyBucket, bucket_notifications.
  generalize (map_to_list bucket). intros l. revert w.
  induction l as [|kv l IH]; intros w; cbn.
  - by rewrite app_nil_r.
  - rewrite IH. cbn. by rewrite <- app_assoc.
Qed.

Lemma notifyRef_effects ref sm w :
  effects (notifyRef ref sm w) = effects w ++ ref_notifications sm ref.
Proof.
  unfold notifyRef, ref_notifications.
  destruct (pathSubscriptions sm !! ref).
  - apply notifyBucket_effects.
  - by rewrite app_nil_r.
Qed.

Lemma elem_of_bucket_notifications bucket e :
  e ∈ bucket_notifications bucket
  ↔ ∃ sid dn, bucket !! sid = Some dn ∧ e = Notify (dn_id dn).
Proof.
  unfold bucket_notifications. rewrite list_elem_of_fmap. split.
  - intros ([sid dn] & -> & Hin). exists sid, dn.
    by apply elem_of_map_to_list in Hin.
  - intros (sid & dn & Hl & ->). exists (sid, dn).
    split; [done|]. by apply elem_of_map_to_list.
Qed.

Lemma elem_of_ref_notifications sm ref e :
  e ∈ ref_notifications sm ref
  ↔ ∃ sid dn, keyed_at sm ref sid dn ∧ e = Notify (dn_id dn).
Proof.
  unfold ref_notifications, keyed_at.
  destruct (pathSubscriptions sm !! ref) as [bucket|].
  - rewrite elem_of_bucket_notifications. split.
    + intros (sid & dn & ? & ?). exists sid, dn. eauto.
    + intros (sid & dn & (b & [= <-] & ?) & ?). eauto.
  - split; [by intros ?%elem_of_nil|]. by intros (? & ? & (? & ? & ?) & ?).
Qed.

Lemma elem_of_topic_notifications sm topic e :
  e ∈ topic_notifications sm topic
  ↔ ∃ sid dn, keyed_at_topic sm topic sid dn ∧ e = Notify (dn_id dn).
Proof.
  unfold topic_notifications, keyed_at_topic.
  destruct (nonPathSubscriptions sm !! topic) as [bucket|].
  - rewrite elem_of_bucket_notifications. split.
    + intros (sid & dn & ? & ?). exists sid, dn. eauto.
    + intros (sid & dn & (b & [= <-] & ?) & ?). eauto.
  - split; [by intros ?%elem_of_nil|]. by intros (? & ? & (? & ? & ?) & ?).
Qed.

Lemma elem_of_all_path_notifications sm e :
  e ∈ all_path_notifications sm
  ↔ ∃ ref sid dn, keyed_at sm ref sid dn ∧ e = Notify (dn_id dn).
Proof.
  unfold all_path_notifications, keyed_at.
  rewrite list_elem_of_join. split.
  - intros (l & He & Hl). apply list_elem_of_fmap in Hl as ([ref b] & -> & Hin).
    apply elem_of_map_to_list in Hin.
    apply elem_of_bucket_notifications in He as (sid & dn & ? & ?).
    exists ref, sid, dn. eauto.
  - intros (ref & sid & dn & (b & Hb & Hs) & ->).
    exists (bucket_notifications b). split.
    + apply elem_of_bucket_notifications. eauto.
    + apply list_elem_of_fmap. exists (ref, b). split; [done|].
      by apply elem_of_map_to_list.
Qed.

Lemma nodeChangeLocked_effects sm w fb p :
  effects (nodeChangeLocked (mkNode fb (Some p)) sm w)
  = effects w ++ ref_notifications sm (mkRef fb p)
    ++ match Paths.getParentPath p with
       | (parent, true) => ref_notifications sm (mkRef fb parent)
       | (_, false) => []
       end.
Proof.
  unfold nodeChangeLocked. cbn.
  destruct (Paths.getParentPath p) as [parent [|]].
  - by rewrite !notifyRef_effects, app_assoc.
  - by rewrite notifyRef_effects, app_nil_r.
Qed.

Lemma PublishChange_effects sm w topic :
  effects (PublishChange topic sm w)
  = effects w
    ++ (if decide (topic = SubscriptionTopic_OVERALL_SYNC_STATUS)
        then all_path_notifications sm else [])
    ++ topic_notifications sm topic.
Proof.
  unfold PublishChange, topic_notifications.
  assert (Hall : ∀ l w0,
    effects (foldl (λ w kv, notifyBucket kv.2 w) w0 l)
    = effects w0 ++ mjoin ((λ kv : pathSubscriptionRef * _,
                              bucket_notifications kv.2) <$> l)).
  { induction l as [|kv l IH]; intros w0; cbn.
    - by rewrite app_nil_r.
    - by rewrite IH, notifyBucket_effects, app_assoc. }
  case_decide.
  - destruct (nonPathSubscriptions sm !! topic).
    + by rewrite notifyBucket_effects, Hall, app_assoc.
    + by rewrite Hall, app_nil_r.
  - destruct (nonPathSubscriptions sm !! topic); cbn.
    + by rewrite notifyBucket_effects.
    + by rewrite app_nil_r.
Qed.

End notifications.

(** *** Change events *)

(** A change at [/foo], one component below the root, notifies nobody,
    although the subscription [root] is keyed by the root. *)
Lemma top_level_change_skips_root_subscriber :
  keyed_at root_subscriber.1 (mkRef testFB "/") "root"
           (mkDebounced 0 (OnPathChange 1 "gui" "root" "/" 0) Inf) ∧
  Paths.spec_parent "/foo" = Some "/" ∧
  emitted root_subscriber.2
          (nodeChangeLocked (mkNode testFB (Some "/foo"))
                            root_subscriber.1 root_subscriber.2) = [] ∧
  ¬ notifies_exact_and_spec_parent.
Proof.
  assert (Hk : keyed_at root_subscriber.1 (mkRef testFB "/") "root"
                 (mkDebounced 0 (OnPathChange 1 "gui" "root" "/" 0) Inf)).
  { eexists. split; by vm_compute. }
  assert (He : emitted root_subscriber.2
                 (nodeChangeLocked (mkNode testFB (Some "/foo"))
                    root_subscriber.1 root_subscriber.2) = [])
    by by vm_compute.
  split; [exact Hk|]. split; [reflexivity|]. split; [exact He|].
  intros Hclaim.
  destruct (Hclaim root_subscriber.1 root_subscriber.2 testFB "/foo"
              (Notify 0)) as [_ Hback].
  rewrite He in Hback. eapply elem_of_nil, Hback.
  exists "root", (mkDebounced 0 (OnPathChange 1 "gui" "root" "/" 0) Inf).
  split; [reflexivity|]. right. by exists "/".
Qed.

(** C3, amended.  A change at the in-container path [p] of branch [fb]
    notifies the subscriptions keyed by [(fb, p)] and, when [getParentPath]
    finds a parent (when [p] has a separator after its first byte; the
    parent is then the text before the last separator, the parent of the
    spec), those keyed by [(fb, parent)]; it notifies no other subscription.
    For a path directly below the root only the exact key is notified. *)
Theorem change_notifies_exact_and_parent
    (sm : subscriptionManager) (w : World) (fb : FolderBranch) (p : string) :
  let es := emitted w (nodeChangeLocked (mkNode fb (Some p)) sm w) in
  es = ref_notifications sm (mkRef fb p)
       ++ match Paths.getParentPath p with
          | (parent, true) => ref_notifications sm (mkRef fb parent)
          | (_, false) => []
          end ∧
  (∀ e, e ∈ es
        ↔ ∃ sid dn,
            e = Notify (dn_id dn) ∧
            (keyed_at sm (mkRef fb p) sid dn ∨
             ∃ parent, Paths.getParentPath p = (parent, true) ∧
                       keyed_at sm (mkRef fb parent) sid dn)) ∧
  (∀ parent,
     Paths.getParentPath p = (parent, true)
     ↔ 0 < Paths.LastIndexByte p Paths.slash ∧
       parent = substring 0 (Z.to_nat (Paths.LastIndexByte p Paths.slash)) p) ∧
  (∀ parent,
     Paths.getParentPath p = (parent, true) → Paths.spec_parent p = Some parent).
Proof.
  cbn zeta.
  assert (Hes : emitted w (nodeChangeLocked (mkNode fb (Some p)) sm w)
                = ref_notifications sm (mkRef fb p)
                  ++ match Paths.getParentPath p with
                     | (parent, true) => ref_notifications sm (mkRef fb parent)
                     | (_, false) => []
                     end).
  { apply emitted_app, nodeChangeLocked_effects. }
  split; [exact Hes|]. split; [|split].
  - intros e. rewrite Hes, elem_of_app, elem_of_ref_notifications.
    destruct (Paths.getParentPath p) as [parent [|]].
    + rewrite elem_of_ref_notifications. split.
      * intros [(sid & dn & ? & ?)|(sid & dn & ? & ?)];
          exists sid, dn; split; eauto.
      * intros (sid & dn & ? & [?|(q & [= <-] & ?)]); [left|right]; eauto.
    + split.
      * intros [(sid & dn & ? & ?)|?%elem_of_nil]; [|done].
        exists sid, dn. eauto.
      * intros (sid & dn & ? & [?|(q & [=] & ?)]). left. eauto.
  - intros parent. unfold Paths.getParentPath.
    destruct (Z.leb_spec (Paths.LastIndexByte p Paths.slash) 0).
    + split; [done|]. intros [? _]. lia.
    + split; [by intros [= <-]|]. by intros [_ ->].
  - apply PathFacts.getParentPath_spec_parent.
Qed.

(** A change at [/a/b/c] notifies the deliveries of [exact] (0) and [parent]
    (1), not those of [grandparent] (2) and [child] (3). *)
Lemma change_notifies_exact_and_parent_witness :
  Paths.getParentPath "/a/b/c" = ("/a/b", true) ∧
  ∀ e, e ∈ emitted four_levels.2
             (nodeChangeLocked (mkNode testFB (Some "/a/b/c"))
                               four_levels.1 four_levels.2)
       ↔ e = Notify 0 ∨ e = Notify 1.
Proof.
  split; [reflexivity|]. intros e.
  destruct (change_notifies_exact_and_parent
              four_levels.1 four_levels.2 testFB "/a/b/c") as (Hes & _).
  cbn zeta in Hes. rewrite Hes.
  replace (ref_notifications four_levels.1 (mkRef testFB "/a/b/c")
           ++ match Paths.getParentPath "/a/b/c" with
              | (parent, true) =>
                  ref_notifications four_levels.1 (mkRef testFB parent)
              | (_, false) => []
              end)
    with [Notify 0; Notify 1] by by vm_compute.
  rewrite !elem_of_cons, elem_of_nil. tauto.
Defined.

(** C10.  [getParentPath] finds no parent for a path whose only separator is
    the leading one, and a path [/name] is such a path.  A change there
    notifies the subscriptions keyed by that very path and nothing else, so
    none keyed by the root; on any change at a path other than the root that
    does not start with two separators, every notification goes to a
    subscription keyed by a path other than the root.  A directory [d]
    other than the root is notified of a change at [d/name]. *)
Theorem root_subscriber_misses_top_level_changes :
  (∀ p, Paths.only_leading_slash p → Paths.getParentPath p = ("", false)) ∧
  (∀ name, Paths.component name →
           Paths.only_leading_slash (String Paths.slash name)) ∧
  (∀ sm w fb p,
     Paths.only_leading_slash p →
     emitted w (nodeChangeLocked (mkNode fb (Some p)) sm w)
     = ref_notifications sm (mkRef fb p)) ∧
  (∀ sm w fb p e,
     p ≠ "/" → String.prefix "//" p = false →
     e ∈ emitted w (nodeChangeLocked (mkNode fb (Some p)) sm w) →
     ∃ q sid dn,
       q ≠ "/" ∧ keyed_at sm (mkRef fb q) sid dn ∧ e = Notify (dn_id dn)) ∧
  (∀ sm w fb d name,
     d ≠ "" → Paths.component name →
     emitted w (nodeChangeLocked
                  (mkNode fb (Some (d +:+ String Paths.slash name))) sm w)
     = ref_notifications sm (mkRef fb (d +:+ String Paths.slash name))
       ++ ref_notifications sm (mkRef fb d)).
Proof.
  split; [exact PathFacts.getParentPath_top_level|].
  split; [intros name Hn; apply (PathFacts.LastIndexByte_child "" name Hn)|].
  split; [|split].
  - intros sm w fb p Hp. apply emitted_app.
    rewrite nodeChangeLocked_effects, PathFacts.getParentPath_top_level by done.
    by rewrite app_nil_r.
  - intros sm w fb p e Hroot Hclean.
    rewrite (emitted_app _ _ _ (nodeChangeLocked_effects sm w fb p)).
    rewrite elem_of_app, elem_of_ref_notifications.
    intros [(sid & dn & ? & ?)|He]; [by exists p, sid, dn|].
    destruct (Paths.getParentPath p) as [parent [|]] eqn:Eparent;
      [|by apply elem_of_nil in He].
    apply elem_of_ref_notifications in He as (sid & dn & ? & ?).
    exists parent, sid, dn. split; [|done]. intros ->.
    apply PathFacts.getParentPath_root in Eparent. congruence.
  - intros sm w fb d name Hd Hn. apply emitted_app.
    by rewrite nodeChangeLocked_effects, PathFacts.getParentPath_child.
Qed.

Lemma root_subscriber_misses_top_level_changes_witness :
  Paths.getParentPath "/foo" = ("", false) ∧
  emitted root_and_dir.2
          (nodeChangeLocked (mkNode testFB (Some "/foo"))
                            root_and_dir.1 root_and_dir.2) = [] ∧
  emitted root_and_dir.2
          (nodeChangeLocked (mkNode testFB (Some "/a/foo"))
                            root_and_dir.1 root_and_dir.2) = [Notify 1] ∧
  emitted root_and_dir.2
          (nodeChangeLocked (mkNode testFB (Some "/"))
                            root_and_dir.1 root_and_dir.2) = [Notify 0].
Proof.
  destruct root_subscriber_misses_top_level_changes
    as (Hparent & Hname & Htop & _ & Hdir).
  assert (Hc : Paths.component "foo") by reflexivity.
  split; [apply Hparent, (Hname "foo" Hc)|].
  split; [rewrite (Htop _ _ _ "/foo" (Hname "foo" Hc)); by vm_compute|].
  split; [|by vm_compute].
  change "/a/foo" with ("/a" +:+ String Paths.slash "foo").
  rewrite (Hdir root_and_dir.1 root_and_dir.2 testFB "/a" "foo"); [|done..].
  by vm_compute.
Defined.

(** *** Published topics *)

(** C6.  [PublishChange] of the overall sync status topic notifies every
    delivery stored under any path key, whatever the topic of that
    subscription, and then the non-path subscribers of the topic;
    [PublishChange] of any other topic notifies the non-path subscribers of
    that topic and nothing else. *)
Theorem PublishChange_notifies
    (sm : subscriptionManager) (w : World) (topic : SubscriptionTopic) :
  let es := emitted w (PublishChange topic sm w) in
  (topic = SubscriptionTopic_OVERALL_SYNC_STATUS →
   es = all_path_notifications sm ++ topic_notifications sm topic ∧
   ∀ e, e ∈ es
        ↔ (∃ ref sid dn, keyed_at sm ref sid dn ∧ e = Notify (dn_id dn)) ∨
          (∃ sid dn, keyed_at_topic sm topic sid dn ∧ e = Notify (dn_id dn))) ∧
  (topic ≠ SubscriptionTopic_OVERALL_SYNC_STATUS →
   es = topic_notifications sm topic ∧
   ∀ e, e ∈ es
        ↔ ∃ sid dn, keyed_at_topic sm topic sid dn ∧ e = Notify (dn_id dn)).
Proof.
  cbn zeta. rewrite (emitted_app _ _ _ (PublishChange_effects sm w topic)).
  split; intros Ht.
  - rewrite decide_True by done. split; [done|]. intros e.
    by rewrite elem_of_app, elem_of_all_path_notifications,
               elem_of_topic_notifications.
  - rewrite decide_False by done. rewrite app_nil_l. split; [done|].
    intros e. by rewrite elem_of_topic_notifications.
Qed.

Lemma PublishChange_notifies_witness :
  (∀ e, e ∈ emitted mixed_subscriptions.2
              (PublishChange SubscriptionTopic_OVERALL_SYNC_STATUS
                             mixed_subscriptions.1 mixed_subscriptions.2)
        ↔ e = Notify 0 ∨ e = Notify 1 ∨ e = Notify 2) ∧
  emitted mixed_subscriptions.2
          (PublishChange SubscriptionTopic_ONLINE_STATUS
                         mixed_subscriptions.1 mixed_subscriptions.2)
  = [Notify 3].
Proof.
  split.
  - destruct (PublishChange_notifies
                mixed_subscriptions.1 mixed_subscriptions.2
                SubscriptionTopic_OVERALL_SYNC_STATUS) as [H _].
    destruct (H eq_refl) as [-> _]. intros e.
    replace (all_path_notifications mixed_subscriptions.1)
      with [Notify 0; Notify 1] by by vm_compute.
    replace (topic_notifications mixed_subscriptions.1
               SubscriptionTopic_OVERALL_SYNC_STATUS)
      with [Notify 2] by by vm_compute.
    cbn. rewrite !elem_of_cons, elem_of_nil. tauto.
  - destruct (PublishChange_notifies
                mixed_subscriptions.1 mixed_subscriptions.2
                SubscriptionTopic_ONLINE_STATUS) as [_ H].
    destruct H as [-> _]; [done|]. by vm_compute.
Defined.

(** ** The delivery primitive *)

Module DebounceFacts.
Import Debounce.

Lemma run_invariant (P : state → Prop) :
  (∀ a st st', P st → step a st = Some st' → P st') →
  ∀ acts st st', P st → run acts st = Some st' → P st'.
Proof.
  intros Hstep. induction acts as [|a acts IH]; intros st st' HP Hrun; cbn in Hrun.
  - by injection Hrun as <-.
  - destruct (step a st) as [st1|] eqn:E; [|done]. eauto.
Qed.






Lemma blocking_run a st st' :
  step a st = Some st' → blocking st' = blocking st.
Proof.
  destruct a as [| |pick]; cbn.
  - unfold notify, getChSender.
    destruct (blocking st) eqn:Eb, (ch st <? cap)%nat;
      intros ?; by simplify_eq.
  - by intros [= <-].
  - unfold task_step.
    destruct (task st), (ch st), (cancelled st), pick;
      intros ?; by simplify_eq.
Qed.

Lemma blocking_reachable limit st :
  reachable limit st → blocking st = is_Inf limit.
Proof.
  intros [acts Hrun].
  apply (run_invariant (λ st, blocking st = is_Inf limit))
    with (acts := acts) (st := start limit); [|reflexivity|done].
  intros a st0 st1 H0 Hs. by rewrite (blocking_run _ _ _ Hs).
Qed.

End DebounceFacts.

(** The limit [subscribePath] and [subscribeNonPath] pass to [debounce] is
    finite exactly when a positive interval was given. *)
Lemma rate_Every_finite (interval : Z) :
  rate_Every interval ≠ Inf ↔ 0 < interval.
Proof.
  unfold rate_Every. destruct (Z.leb_spec interval 0); split; try done; lia.
Qed.



(** Without a deduplicate interval: [shutdown], the goroutine returns, one
    [notify] fills the channel.  The next [notify] cannot proceed, and no
    step of any party changes that. *)
Lemma second_notify_after_shutdown_blocks :
  ∃ st,
    Debounce.run [Debounce.CallShutdown; Debounce.TaskStep true;
                  Debounce.CallNotify] (Debounce.start Inf) = Some st ∧
    Debounce.cancelled st = true ∧
    Debounce.task st = Debounce.Returned ∧
    Debounce.notify st = None ∧
    (∀ a st', Debounce.step a st = Some st' → st' = st) ∧
    ¬ notify_after_shutdown_returns.
Proof.
  eexists. split; [reflexivity|]. split; [reflexivity|].
  split; [reflexivity|]. split; [reflexivity|]. split.
  - intros [| |pick] st'; cbn; [done| |done]. by intros [= <-].
  - intros Hclaim.
    destruct (Hclaim Inf
                (Debounce.mkState true 1 true Debounce.Returned []))
      as (st' & Hn & _); [|done|done].
    by exists [Debounce.CallShutdown; Debounce.TaskStep true;
               Debounce.CallNotify].
Qed.

(** C5, amended.  Once [shutdown] was called the context stays cancelled and
    the goroutine, when it next runs, is never parked: it returns within two
    of its steps, firing at most one more callback (a notification it picks
    up in the [select]).  Once it has returned it takes no step again and no
    later call, [notify] included, fires a callback.  With a finite limit
    [notify] then still returns at once; without one, [notify] returns while
    the channel has room and parks its caller when the channel is full. *)
Theorem shutdown_stops_the_task (limit : Limit) (st : Debounce.state) :
  Debounce.reachable limit st →
  Debounce.cancelled st = true →
  (∀ acts st', Debounce.run acts st = Some st' →
               Debounce.cancelled st' = true) ∧
  (Debounce.task st ≠ Debounce.Returned →
   ∀ pick, ∃ st1,
     Debounce.task_step pick st = Some st1 ∧
     (st1 = Debounce.returned st ∨
      (st1 = Debounce.fired st ∧
       ∀ pick', Debounce.task_step pick' st1
                = Some (Debounce.returned st1)))) ∧
  (Debounce.task st = Debounce.Returned →
   (∀ pick, Debounce.task_step pick st = None) ∧
   (∀ acts st', Debounce.run acts st = Some st' →
                Debounce.task st' = Debounce.Returned ∧
                Debounce.log st' = Debounce.log st) ∧
   (limit ≠ Inf → ∃ st', Debounce.notify st = Some st') ∧
   (limit = Inf →
    ((Debounce.ch st < Debounce.cap)%nat →
     ∃ st', Debounce.notify st = Some st' ∧
            Debounce.ch st' = Debounce.cap) ∧
    (Debounce.ch st = Debounce.cap → Debounce.notify st = None))).
Proof.
  intros Hreach Hc.
  pose proof (DebounceFacts.blocking_reachable _ _ Hreach) as Hb.
  split; [|split].
  - intros acts st' Hrun.
    refine (DebounceFacts.run_invariant
              (λ s, Debounce.cancelled s = true) _ acts st st' Hc Hrun).
    intros [| |pick] s s' Hs; cbn.
    + unfold Debounce.notify, Debounce.getChSender.
      destruct (Debounce.blocking s), (Debounce.ch s <? Debounce.cap)%nat;
        intros ?; by simplify_eq/=.
    + by intros [= <-].
    + unfold Debounce.task_step.
      destruct (Debounce.task s), (Debounce.ch s),
        (Debounce.cancelled s) eqn:Ec, pick; intros ?; by simplify_eq/=.
  - intros Ht pick. unfold Debounce.task_step. rewrite Hc.
    destruct (Debounce.task st) eqn:Et; [| |done].
    + eauto.
    + destruct (Debounce.ch st) eqn:Ech; [eauto|].
      destruct pick; [|eauto].
      eexists. split; [done|]. right. split; [done|].
      intros pick'. cbn. by rewrite Hc.
  - intros Ht. split; [|split; [|split]].
    + intros pick. unfold Debounce.task_step. by rewrite Ht.
    + intros acts st' Hrun.
      refine (DebounceFacts.run_invariant
                (λ s, Debounce.task s = Debounce.Returned ∧
                      Debounce.log s = Debounce.log st)
                _ acts st st' (conj Ht eq_refl) Hrun).
      intros [| |pick] s s' [Hs1 Hs2]; cbn.
      * unfold Debounce.notify, Debounce.getChSender.
        destruct (Debounce.blocking s), (Debounce.ch s <? Debounce.cap)%nat;
          intros ?; by simplify_eq/=.
      * by intros [= <-].
      * unfold Debounce.task_step. by rewrite Hs1.
    + intros Hfin. unfold Debounce.notify, Debounce.getChSender.
      rewrite Hb. destruct limit as [|d]; [by destruct Hfin|].
      cbn [is_Inf].
      destruct (Debounce.ch st <? Debounce.cap)%nat;
        [exists (Debounce.send st) | exists st]; reflexivity.
    + intros ->. unfold Debounce.notify, Debounce.getChSender.
      rewrite Hb. cbn [is_Inf]. split.
      * intros Hlt. rewrite (proj2 (Nat.ltb_lt _ _) Hlt).
        exists (Debounce.send st). split; [done|].
        cbn. unfold Debounce.cap in *. lia.
      * intros ->. by rewrite Nat.ltb_irrefl.
Qed.

Lemma shutdown_stops_the_task_witness :
  Debounce.run shutdown_while_pending (Debounce.start (rate_Every 100))
  = Some pending_at_shutdown ∧
  Debounce.cancelled pending_at_shutdown = true ∧
  ∀ pick, ∃ st1,
    Debounce.task_step pick pending_at_shutdown = Some st1 ∧
    (st1 = Debounce.returned pending_at_shutdown ∨
     (st1 = Debounce.fired pending_at_shutdown ∧
      ∀ pick', Debounce.task_step pick' st1 = Some (Debounce.returned st1))).
Proof.
  assert (Hr : Debounce.reachable (rate_Every 100) pending_at_shutdown)
    by (by exists shutdown_while_pending).
  destruct (shutdown_stops_the_task (rate_Every 100) pending_at_shutdown
              Hr eq_refl) as (_ & Hstep & _).
  split; [reflexivity|]. split; [reflexivity|].
  apply Hstep. discriminate.
Defined.

(** ** Shutting a manager down *)

Section unsubscribe_present.
Variables (sid : SubscriptionID) (sm : subscriptionManager) (w : World).

(** [unsubscribePath] of a SID whose delivery is where the reverse index
    says, in closed form. *)
Lemma unsubscribePath_present ref bucket dn :
  pathSubscriptionIDToRef sm !! sid = Some ref →
  pathSubscriptions sm !! ref = Some bucket →
  bucket !! sid = Some dn →
  ∃ counts extra,
    unsubscribePath sid sm w
    = (mkSM (clientID sm)
            (if decide (delete sid bucket = ∅)
             then delete ref (pathSubscriptions sm)
             else <[ref := delete sid bucket]> (pathSubscriptions sm))
            (delete sid (pathSubscriptionIDToRef sm))
            (nonPathSubscriptions sm) (nonPathSubscriptionIDToTopic sm)
            (delete sid (subscriptionIDs sm))
            counts,
       mkWorld (next_id w)
               (effects w ++ ShutdownNotify (dn_id dn) :: extra)) ∧
    (extra = [] ∨ extra = [UnregisterFromChanges (folderBranch ref)]).
Proof.
  intros Hid Hb Hs. unfold unsubscribePath. rewrite Hid. cbn.
  rewrite Hb, Hs.
  destruct (decide (size (delete sid bucket) = 0%nat)) as [Hz|Hz].
  - apply map_size_empty_iff in Hz as Hempty.
    rewrite decide_True by done.
    unfold unregisterForChangesLocked. cbn.
    destruct (int_at (subscriptionCountByFolderBranch sm) (folderBranch ref)
              =? 1);
      unfold with_subscriptionIDs, with_pathSubscriptions,
        with_subscriptionCountByFolderBranch, with_pathSubscriptionIDToRef,
        emit; cbn; rewrite delete_insert_eq; eexists _, _;
      (split; [by rewrite <- ?app_assoc|]); eauto.
  - rewrite decide_False by (by intros ?%map_size_empty_iff).
    cbn. eexists _, []. split; [done|]. by left.
Qed.

(** The same for [unsubscribeNonPath]. *)
Lemma unsubscribeNonPath_present topic bucket dn :
  nonPathSubscriptionIDToTopic sm !! sid = Some topic →
  nonPathSubscriptions sm !! topic = Some bucket →
  bucket !! sid = Some dn →
  unsubscribeNonPath sid sm w
  = (mkSM (clientID sm) (pathSubscriptions sm) (pathSubscriptionIDToRef sm)
          (<[topic := delete sid bucket]> (nonPathSubscriptions sm))
          (delete sid (nonPathSubscriptionIDToTopic sm))
          (delete sid (subscriptionIDs sm))
          (subscriptionCountByFolderBranch sm),
     mkWorld (next_id w) (effects w ++ [ShutdownNotify (dn_id dn)])).
Proof.
  intros Hid Hb Hs. unfold unsubscribeNonPath. rewrite Hid. cbn.
  by rewrite Hb, Hs.
Qed.

End unsubscribe_present.

Lemma keyed_at_functional sm ref sid dn1 dn2 :
  keyed_at sm ref sid dn1 → keyed_at sm ref sid dn2 → dn1 = dn2.
Proof. intros (b1 & H1 & L1) (b2 & H2 & L2). congruence. Qed.

Lemma keyed_at_topic_functional sm topic sid dn1 dn2 :
  keyed_at_topic sm topic sid dn1 → keyed_at_topic sm topic sid dn2 → dn1 = dn2.
Proof. intros (b1 & H1 & L1) (b2 & H2 & L2). congruence. Qed.

Lemma bool_at_delete (m : gmap string bool) sid sid' :
  bool_at (delete sid m) sid'
  = if decide (sid = sid') then false else bool_at m sid'.
Proof.
  unfold bool_at. rewrite lookup_delete. by case_decide.
Qed.

(** What one [unsubscribePath] of a subscribed SID does to a consistent
    manager. *)
Lemma unsubscribePath_step sid sm w ref :
  wf_manager sm →
  pathSubscriptionIDToRef sm !! sid = Some ref →
  let s' := unsubscribePath sid sm w in
  wf_manager s'.1 ∧
  clientID s'.1 = clientID sm ∧
  pathSubscriptionIDToRef s'.1 = delete sid (pathSubscriptionIDToRef sm) ∧
  nonPathSubscriptions s'.1 = nonPathSubscriptions sm ∧
  nonPathSubscriptionIDToTopic s'.1 = nonPathSubscriptionIDToTopic sm ∧
  subscriptionIDs s'.1 = delete sid (subscriptionIDs sm) ∧
  (∀ ref' sid' dn',
     keyed_at s'.1 ref' sid' dn' ↔ keyed_at sm ref' sid' dn' ∧ sid' ≠ sid) ∧
  ∃ dn extra,
    keyed_at sm ref sid dn ∧
    effects s'.2 = effects w ++ ShutdownNotify (dn_id dn) :: extra.
Proof.
  intros Hwf Hid. cbn zeta.
  destruct (wf_path_fwd _ Hwf _ _ Hid) as (dn & bucket & Hb & Hs).
  destruct (unsubscribePath_present sid sm w ref bucket dn Hid Hb Hs)
    as (counts & extra & -> & _).
  cbn [fst snd clientID pathSubscriptionIDToRef nonPathSubscriptions
       nonPathSubscriptionIDToTopic subscriptionIDs effects].
  set (ps' := if decide (delete sid bucket = ∅)
              then delete ref (pathSubscriptions sm)
              else <[ref := delete sid bucket]> (pathSubscriptions sm)).
  set (sm' := mkSM _ ps' _ _ _ _ counts).
  assert (Hkeyed : ∀ ref' sid' dn',
            keyed_at sm' ref' sid' dn' ↔ keyed_at sm ref' sid' dn' ∧ sid' ≠ sid).
  { intros ref' sid' dn'. unfold keyed_at. cbn [pathSubscriptions sm'].
    destruct (decide (ref' = ref)) as [->|Hne].
    - split.
      + intros (b' & Hb' & Hs'). subst ps'. case_decide.
        * by rewrite lookup_delete_eq in Hb'.
        * rewrite lookup_insert_eq in Hb'. injection Hb' as <-.
          apply lookup_delete_Some in Hs' as [? ?]. eauto.
      + intros [(b' & Hb' & Hs') Hsid]. rewrite Hb in Hb'.
        injection Hb' as <-. exists (delete sid bucket).
        assert (delete sid bucket !! sid' = Some dn')
          by (by rewrite lookup_delete_ne).
        split; [|done]. subst ps'. rewrite decide_False.
        * by rewrite lookup_insert_eq.
        * intros Hempty. rewrite Hempty in H. by rewrite lookup_empty in H.
    - assert (Hsame : ps' !! ref' = pathSubscriptions sm !! ref').
      { subst ps'. case_decide.
        - by rewrite lookup_delete_ne.
        - by rewrite lookup_insert_ne. }
      rewrite Hsame. split.
      + intros (b' & Hb' & Hs'). split; [eauto|]. intros ->.
        assert (keyed_at sm ref' sid dn') as Hk by (by exists b').
        apply (wf_path_bwd _ Hwf) in Hk. congruence.
      + intros [? _]. done. }
  split; [|repeat (split; [done|]); eauto 6].
  - constructor; cbn [pathSubscriptionIDToRef nonPathSubscriptions
                      nonPathSubscriptionIDToTopic subscriptionIDs
                      pathSubscriptions sm'].
    + intros sid' ref' [Hne Hl]%lookup_delete_Some.
      destruct (wf_path_fwd _ Hwf _ _ Hl) as (dn' & Hk).
      exists dn'. by apply Hkeyed.
    + intros ref' sid' dn' [Hk Hne]%Hkeyed.
      rewrite lookup_delete_ne by done. by apply (wf_path_bwd _ Hwf) in Hk.
    + intros ref'. subst ps'. case_decide.
      * destruct (decide (ref = ref')) as [->|?].
        -- by rewrite lookup_delete_eq.
        -- rewrite lookup_delete_ne by done. apply (wf_buckets _ Hwf).
      * destruct (decide (ref = ref')) as [->|?].
        -- rewrite lookup_insert_eq. congruence.
        -- rewrite lookup_insert_ne by done. apply (wf_buckets _ Hwf).
    + apply (wf_topic_fwd _ Hwf).
    + apply (wf_topic_bwd _ Hwf).
    + intros sid'. rewrite bool_at_delete, lookup_delete.
      destruct (decide (sid = sid')) as [<-|?].
      * rewrite (wf_exclusive _ Hwf sid) by eauto.
        split; [done|]. by intros [[? ?]|[? ?]].
      * apply (wf_active _ Hwf).
    + intros sid' b [_ Hl]%lookup_delete_Some. by apply (wf_active_true _ Hwf) in Hl.
    + intros sid' [r [_ Hl]%lookup_delete_Some]. apply (wf_exclusive _ Hwf). eauto.
  - exists dn, extra. split; [by exists bucket | done].
Qed.

(** What one [unsubscribeNonPath] of a subscribed SID does to a consistent
    manager. *)
Lemma unsubscribeNonPath_step sid sm w topic :
  wf_manager sm →
  nonPathSubscriptionIDToTopic sm !! sid = Some topic →
  let s' := unsubscribeNonPath sid sm w in
  wf_manager s'.1 ∧
  clientID s'.1 = clientID sm ∧
  pathSubscriptions s'.1 = pathSubscriptions sm ∧
  pathSubscriptionIDToRef s'.1 = pathSubscriptionIDToRef sm ∧
  nonPathSubscriptionIDToTopic s'.1
  = delete sid (nonPathSubscriptionIDToTopic sm) ∧
  subscriptionIDs s'.1 = delete sid (subscriptionIDs sm) ∧
  (∀ topic' sid' dn',
     keyed_at_topic s'.1 topic' sid' dn'
     ↔ keyed_at_topic sm topic' sid' dn' ∧ sid' ≠ sid) ∧
  ∃ dn,
    keyed_at_topic sm topic sid dn ∧
    effects s'.2 = effects w ++ [ShutdownNotify (dn_id dn)].
Proof.
  intros Hwf Hid. cbn zeta.
  destruct (wf_topic_fwd _ Hwf _ _ Hid) as (dn & bucket & Hb & Hs).
  rewrite (unsubscribeNonPath_present sid sm w topic bucket dn Hid Hb Hs).
  cbn [fst snd clientID pathSubscriptions pathSubscriptionIDToRef
       nonPathSubscriptionIDToTopic subscriptionIDs effects].
  set (sm' := mkSM _ _ _ _ _ _ _).
  assert (Hkeyed : ∀ topic' sid' dn',
            keyed_at_topic sm' topic' sid' dn'
            ↔ keyed_at_topic sm topic' sid' dn' ∧ sid' ≠ sid).
  { intros topic' sid' dn'. unfold keyed_at_topic.
    cbn [nonPathSubscriptions sm'].
    destruct (decide (topic' = topic)) as [->|Hne].
    - rewrite lookup_insert_eq. split.
      + intros (b' & [= <-] & Hs').
        apply lookup_delete_Some in Hs' as [? ?]. eauto.
      + intros [(b' & Hb' & Hs') Hsid]. rewrite Hb in Hb'.
        injection Hb' as <-. exists (delete sid bucket).
        split; [done|]. by rewrite lookup_delete_ne.
    - rewrite lookup_insert_ne by done. split.
      + intros (b' & Hb' & Hs'). split; [eauto|]. intros ->.
        assert (keyed_at_topic sm topic' sid dn') as Hk by (by exists b').
        apply (wf_topic_bwd _ Hwf) in Hk. congruence.
      + intros [? _]. done. }
  split; [|repeat (split; [done|]); eauto 6].
  - constructor; cbn [pathSubscriptionIDToRef nonPathSubscriptions
                      nonPathSubscriptionIDToTopic subscriptionIDs
                      pathSubscriptions sm'].
    + apply (wf_path_fwd _ Hwf).
    + apply (wf_path_bwd _ Hwf).
    + apply (wf_buckets _ Hwf).
    + intros sid' topic' [Hne Hl]%lookup_delete_Some.
      destruct (wf_topic_fwd _ Hwf _ _ Hl) as (dn' & Hk).
      exists dn'. by apply Hkeyed.
    + intros topic' sid' dn' [Hk Hne]%Hkeyed.
      rewrite lookup_delete_ne by done. by apply (wf_topic_bwd _ Hwf) in Hk.
    + intros sid'. rewrite bool_at_delete, lookup_delete.
      destruct (decide (sid = sid')) as [<-|?].
      * split; [done|]. intros [Hp|[? ?]]; [|done].
        apply (wf_exclusive _ Hwf) in Hp. congruence.
      * apply (wf_active _ Hwf).
    + intros sid' b [_ Hl]%lookup_delete_Some.
      by apply (wf_active_true _ Hwf) in Hl.
    + intros sid' Hp. apply (wf_exclusive _ Hwf) in Hp.
      rewrite lookup_delete. by case_decide.
  - exists dn. split; [by exists bucket | done].
Qed.

Lemma elem_of_keys `{Countable K} {A} (m : gmap K A) (k : K) :
  k ∈ (map_to_list m).*1 ↔ is_Some (m !! k).
Proof.
  rewrite list_elem_of_fmap. split.
  - intros ([k' a] & -> & Hin). apply elem_of_map_to_list in Hin. eauto.
  - intros [a Ha]. exists (k, a). split; [done|].
    by apply elem_of_map_to_list.
Qed.

Lemma deleted_head_or_tail {A} (sid sid' : string) (l : list string)
    (x : option A) :
  (if decide (sid' ∈ l) then None
   else if decide (sid = sid') then None else x)
  = if decide (sid' ∈ sid :: l) then None else x.
Proof.
  destruct (decide (sid' ∈ l)) as [Hl|Hl].
  - rewrite decide_True; [done|by right].
  - destruct (decide (sid = sid')) as [->|Hne].
    + rewrite decide_True; [done|by left].
    + rewrite decide_False; [done|]. by intros [->|?]%elem_of_cons.
Qed.

(** The first loop of [Shutdown], over SIDs that are all in the path
    index. *)
Lemma unsubscribePath_loop (l : list string) :
  ∀ sm w,
    wf_manager sm → NoDup l →
    (∀ sid, sid ∈ l → is_Some (pathSubscriptionIDToRef sm !! sid)) →
    let s' := foldl (λ s sid, unsubscribePath sid s.1 s.2) (sm, w) l in
    wf_manager s'.1 ∧
    clientID s'.1 = clientID sm ∧
    (∀ sid, pathSubscriptionIDToRef s'.1 !! sid
            = if decide (sid ∈ l) then None
              else pathSubscriptionIDToRef sm !! sid) ∧
    nonPathSubscriptions s'.1 = nonPathSubscriptions sm ∧
    nonPathSubscriptionIDToTopic s'.1 = nonPathSubscriptionIDToTopic sm ∧
    (∀ sid, subscriptionIDs s'.1 !! sid
            = if decide (sid ∈ l) then None else subscriptionIDs sm !! sid) ∧
    (∀ ref sid dn,
       keyed_at s'.1 ref sid dn ↔ keyed_at sm ref sid dn ∧ sid ∉ l) ∧
    ∃ es, effects s'.2 = effects w ++ es ∧
          ∀ ref sid dn, keyed_at sm ref sid dn → sid ∈ l →
                        ShutdownNotify (dn_id dn) ∈ es.
Proof.
  induction l as [|sid l IH]; intros sm w Hwf Hnd Hin; cbn zeta.
  - cbn. repeat (split; [done|]). split.
    + intros. split; [intros ?; split; [done|apply not_elem_of_nil]|by intros [? _]].
    + exists []. split; [by rewrite app_nil_r|]. by intros ???? ?%elem_of_nil.
  - apply NoDup_cons in Hnd as [Hnotin Hnd].
    destruct (Hin sid) as [ref Hid]; [left|].
    destruct (unsubscribePath_step sid sm w ref Hwf Hid)
      as (Hwf1 & Hc1 & Hid1 & Hnp1 & Ht1 & Hids1 & Hk1 & dn & extra & Hdn & He1).
    cbn [foldl fst snd].
    destruct (unsubscribePath sid sm w) as [sm1 w1]. cbn [fst snd] in *.
    destruct (IH sm1 w1 Hwf1 Hnd)
      as (Hwf2 & Hc2 & Hid2 & Hnp2 & Ht2 & Hids2 & Hk2 & es & He2 & Hes).
    { intros sid' Hsid'. rewrite Hid1, lookup_delete_ne.
      - apply Hin. by right.
      - intros <-. done. }
    cbn zeta in *.
    split; [done|]. split; [congruence|]. split; [|split; [congruence|]].
    { intros sid'. rewrite Hid2, Hid1, lookup_delete.
      apply deleted_head_or_tail. }
    split; [congruence|]. split; [|split].
    { intros sid'. rewrite Hids2, Hids1, lookup_delete.
      apply deleted_head_or_tail. }
    { intros ref' sid' dn'. rewrite Hk2, Hk1, not_elem_of_cons. tauto. }
    exists (ShutdownNotify (dn_id dn) :: extra ++ es). split.
    { rewrite He2, He1, <- app_assoc. done. }
    intros ref' sid' dn' Hk [->|Hl]%elem_of_cons.
    + assert (ref' = ref) as ->.
      { apply (wf_path_bwd _ Hwf) in Hk. congruence. }
      rewrite (keyed_at_functional _ _ _ _ _ Hk Hdn). by left.
    + right. apply elem_of_app. right.
      apply (Hes ref' sid' dn'); [|done]. apply Hk1. split; [done|].
      by intros ->.
Qed.

(** The second loop of [Shutdown], over SIDs that are all in the topic
    index. *)
Lemma unsubscribeNonPath_loop (l : list string) :
  ∀ sm w,
    wf_manager sm → NoDup l →
    (∀ sid, sid ∈ l → is_Some (nonPathSubscriptionIDToTopic sm !! sid)) →
    let s' := foldl (λ s sid, unsubscribeNonPath sid s.1 s.2) (sm, w) l in
    wf_manager s'.1 ∧
    clientID s'.1 = clientID sm ∧
    pathSubscriptions s'.1 = pathSubscriptions sm ∧
    pathSubscriptionIDToRef s'.1 = pathSubscriptionIDToRef sm ∧
    (∀ sid, nonPathSubscriptionIDToTopic s'.1 !! sid
            = if decide (sid ∈ l) then None
              else nonPathSubscriptionIDToTopic sm !! sid) ∧
    (∀ sid, subscriptionIDs s'.1 !! sid
            = if decide (sid ∈ l) then None else subscriptionIDs sm !! sid) ∧
    (∀ topic sid dn,
       keyed_at_topic s'.1 topic sid dn
       ↔ keyed_at_topic sm topic sid dn ∧ sid ∉ l) ∧
    ∃ es, effects s'.2 = effects w ++ es ∧
          ∀ topic sid dn, keyed_at_topic sm topic sid dn → sid ∈ l →
                          ShutdownNotify (dn_id dn) ∈ es.
Proof.
  induction l as [|sid l IH]; intros sm w Hwf Hnd Hin; cbn zeta.
  - cbn. repeat (split; [done|]). split.
    + intros. split; [intros ?; split; [done|apply not_elem_of_nil]|by intros [? _]].
    + exists []. split; [by rewrite app_nil_r|]. by intros ???? ?%elem_of_nil.
  - apply NoDup_cons in Hnd as [Hnotin Hnd].
    destruct (Hin sid) as [topic Hid]; [left|].
    destruct (unsubscribeNonPath_step sid sm w topic Hwf Hid)
      as (Hwf1 & Hc1 & Hps1 & Hp1 & Ht1 & Hids1 & Hk1 & dn & Hdn & He1).
    cbn [foldl fst snd].
    destruct (unsubscribeNonPath sid sm w) as [sm1 w1]. cbn [fst snd] in *.
    destruct (IH sm1 w1 Hwf1 Hnd)
      as (Hwf2 & Hc2 & Hps2 & Hp2 & Ht2 & Hids2 & Hk2 & es & He2 & Hes).
    { intros sid' Hsid'. rewrite Ht1, lookup_delete_ne.
      - apply Hin. by right.
      - intros <-. done. }
    cbn zeta in *.
    split; [done|]. split; [congruence|]. split; [congruence|].
    split; [congruence|]. split; [|split; [|split]].
    { intros sid'. rewrite Ht2, Ht1, lookup_delete.
      apply deleted_head_or_tail. }
    { intros sid'. rewrite Hids2, Hids1, lookup_delete.
      apply deleted_head_or_tail. }
    { intros topic' sid' dn'. rewrite Hk2, Hk1, not_elem_of_cons. tauto. }
    exists (ShutdownNotify (dn_id dn) :: es). split.
    { rewrite He2, He1, <- app_assoc. done. }
    intros topic' sid' dn' Hk [->|Hl]%elem_of_cons.
    + assert (topic' = topic) as ->.
      { apply (wf_topic_bwd _ Hwf) in Hk. congruence. }
      rewrite (keyed_at_topic_functional _ _ _ _ _ Hk Hdn). by left.
    + right. apply (Hes topic' sid' dn'); [|done]. apply Hk1.
      split; [done|]. by intros ->.
Qed.

(** [Shutdown] of a consistent manager cancels every subscription: each
    stored delivery gets its [shutdown] call, and no subscription of either
    kind is left. *)
Lemma Shutdown_cancels_all sm w :
  wf_manager sm →
  let s' := Shutdown sm w in
  wf_manager s'.1 ∧
  clientID s'.1 = clientID sm ∧
  no_subscriptions s'.1 ∧
  ∃ es,
    effects s'.2 = effects w ++ es ∧
    (∀ ref sid dn, keyed_at sm ref sid dn → ShutdownNotify (dn_id dn) ∈ es) ∧
    (∀ topic sid dn, keyed_at_topic sm topic sid dn →
                     ShutdownNotify (dn_id dn) ∈ es).
Proof.
  intros Hwf. unfold Shutdown. cbn zeta.
  set (w0 := emit (ShutdownOnlineStatusTracker (clientID sm)) w).
  set (l1 := (map_to_list (pathSubscriptionIDToRef sm)).*1).
  set (l2 := (map_to_list (nonPathSubscriptionIDToTopic sm)).*1).
  destruct (unsubscribePath_loop l1 sm w0 Hwf)
    as (Hwf1 & Hc1 & Hid1 & Hnp1 & Ht1 & Hids1 & Hk1 & es1 & He1 & Hes1).
  { apply NoDup_fst_map_to_list. }
  { intros sid. apply elem_of_keys. }
  cbn zeta in *.
  destruct (foldl (λ s sid, unsubscribePath sid s.1 s.2) (sm, w0) l1)
    as [sm1 w1]. cbn [fst snd] in *.
  destruct (unsubscribeNonPath_loop l2 sm1 w1 Hwf1)
    as (Hwf2 & Hc2 & Hps2 & Hp2 & Ht2 & Hids2 & Hk2 & es2 & He2 & Hes2).
  { apply NoDup_fst_map_to_list. }
  { intros sid. rewrite Ht1. apply elem_of_keys. }
  cbn zeta in *.
  destruct (foldl (λ s sid, unsubscribeNonPath sid s.1 s.2) (sm1, w1) l2)
    as [sm2 w2]. cbn [fst snd] in *.
  assert (Hkt1 : ∀ topic sid dn,
            keyed_at_topic sm1 topic sid dn ↔ keyed_at_topic sm topic sid dn).
  { intros. unfold keyed_at_topic. by rewrite Hnp1. }
  assert (Hemitted : effects w2
            = effects w
              ++ ShutdownOnlineStatusTracker (clientID sm) :: es1 ++ es2).
  { rewrite He2, He1. subst w0. cbn. by rewrite <- !app_assoc. }
  split; [done|]. split; [congruence|]. split;
    [|eexists; split; [exact Hemitted|split]].
  - assert (Hno_id : pathSubscriptionIDToRef sm2 = ∅).
    { apply map_empty. intros sid. rewrite Hp2, Hid1. case_decide; [done|].
      apply eq_None_not_Some. by intros ?%elem_of_keys. }
    assert (Hno_topic : nonPathSubscriptionIDToTopic sm2 = ∅).
    { apply map_empty. intros sid. rewrite Ht2. case_decide; [done|].
      rewrite Ht1. apply eq_None_not_Some. by intros ?%elem_of_keys. }
    split; [|split; [done|split; [|split; [done|]]]].
    + apply map_empty. intros ref.
      destruct (pathSubscriptions sm2 !! ref) as [bucket|] eqn:Eb; [|done].
      exfalso. destruct (decide (bucket = ∅)) as [->|Hne].
      { by apply (wf_buckets _ Hwf2 ref). }
      apply map_choose in Hne as (sid & dn & Hs).
      assert (Hk : keyed_at sm2 ref sid dn) by (by exists bucket).
      apply (wf_path_bwd _ Hwf2) in Hk. by rewrite Hno_id in Hk.
    + intros topic bucket Hb.
      destruct (decide (bucket = ∅)) as [->|Hne]; [done|]. exfalso.
      apply map_choose in Hne as (sid & dn & Hs).
      assert (Hk : keyed_at_topic sm2 topic sid dn) by (by exists bucket).
      apply (wf_topic_bwd _ Hwf2) in Hk. by rewrite Hno_topic in Hk.
    + apply map_empty. intros sid.
      destruct (subscriptionIDs sm2 !! sid) as [b|] eqn:Eb; [|done]. exfalso.
      pose proof (wf_active_true _ Hwf2 _ _ Eb) as ->.
      assert (Ha : bool_at (subscriptionIDs sm2) sid = true)
        by (unfold bool_at; by rewrite Eb).
      apply (wf_active _ Hwf2) in Ha.
      rewrite Hno_id, Hno_topic, !lookup_empty in Ha.
      by destruct Ha as [[? ?]|[? ?]].
  - intros ref sid dn Hk. right. apply elem_of_app. left.
    apply (Hes1 ref sid dn Hk). apply elem_of_keys.
    apply (wf_path_bwd _ Hwf) in Hk. eauto.
  - intros topic sid dn Hk. right. apply elem_of_app. right.
    apply (Hes2 topic sid dn); [by apply Hkt1|]. apply elem_of_keys.
    apply (wf_topic_bwd _ Hwf) in Hk. eauto.
Qed.

(** ** The registry *)

Lemma wf_empty_manager cid : wf_manager (empty_manager cid).
Proof.
  constructor; unfold keyed_at, keyed_at_topic, empty_manager; cbn.
  - intros ??. by rewrite lookup_empty.
  - intros ??? (? & Hb & _). by rewrite lookup_empty in Hb.
  - intros ?. by rewrite lookup_empty.
  - intros ??. by rewrite lookup_empty.
  - intros ??? (? & Hb & _). by rewrite lookup_empty in Hb.
  - intros sid. unfold bool_at. rewrite !lookup_empty. cbn.
    split; [done|]. by intros [[? ?]|[? ?]].
  - intros ??. by rewrite lookup_empty.
  - intros ? [? H]. by rewrite lookup_empty in H.
Qed.

Lemma wf_newRegistry : wf_registry newRegistry.
Proof.
  constructor; cbn.
  - intros ??. by rewrite lookup_empty.
  - intros ? [? H]. by rewrite lookup_empty in H.
  - intros ???. by rewrite lookup_empty.
  - by intros ? ?%elem_of_nil.
  - constructor.
  - unfold maxPurgeableSubscriptionManagerClient. lia.
Qed.

Section get.
Variables (cid : SubscriptionManagerClientID) (r : Registry).
Hypothesis Hnew : subscriptionManagers (smm r) !! cid = None.

(** [get] of an unknown client when nobody has to leave. *)
Lemma get_admits purgeable :
  purgeable = false ∨
  List.length (purgeableClientIDsFIFO (smm r))
  ≠ maxPurgeableSubscriptionManagerClient →
  get cid purgeable r
  = Some (next_loc (heap r),
          mkRegistry
            (mkSMM (<[cid := next_loc (heap r)]> (subscriptionManagers (smm r)))
                   (purgeableClientIDsFIFO (smm r)
                    ++ (if purgeable then [cid] else [])))
            (mkHeap (<[next_loc (heap r) := empty_manager cid]>
                       (objects (heap r)))
                    (S (next_loc (heap r))))
            (emit (NewOnlineStatusTracker cid) (world r))).
Proof.
  intros Hcase. unfold get. rewrite Hnew.
  destruct purgeable; cbn.
  - destruct Hcase as [?|Hlen]; [done|]. rewrite decide_False by done. done.
  - rewrite app_nil_r. by destruct r as [[] ? ?].
Qed.

(** [get] of an unknown purgeable client when the queue is full. *)
Lemma get_evicts oldest rest lo smo :
  purgeableClientIDsFIFO (smm r) = oldest :: rest →
  List.length (purgeableClientIDsFIFO (smm r))
  = maxPurgeableSubscriptionManagerClient →
  subscriptionManagers (smm r) !! oldest = Some lo →
  objects (heap r) !! lo = Some smo →
  get cid true r
  = Some (next_loc (heap r),
          mkRegistry
            (mkSMM (<[cid := next_loc (heap r)]>
                      (delete oldest (subscriptionManagers (smm r))))
                   (rest ++ [cid]))
            (mkHeap (<[next_loc (heap r) := empty_manager cid]>
                       (<[lo := (Shutdown smo (world r)).1]>
                          (objects (heap r))))
                    (S (next_loc (heap r))))
            (emit (NewOnlineStatusTracker cid) (Shutdown smo (world r)).2)).
Proof.
  intros Hfifo Hlen Hold Hobj. unfold get. rewrite Hnew. cbn.
  rewrite decide_True by done. rewrite Hfifo. cbn. rewrite Hold. cbn.
  rewrite Hobj. cbn. by destruct (Shutdown smo (world r)).
Qed.

End get.

Section get_wf.
Variables (cid : SubscriptionManagerClientID) (r : Registry).
Hypothesis Hwf : wf_registry r.
Hypothesis Hnew : subscriptionManagers (smm r) !! cid = None.

Lemma registered_below_next c l :
  subscriptionManagers (smm r) !! c = Some l → (l < next_loc (heap r))%nat.
Proof.
  intros Hc. destruct (wf_objects _ Hwf _ _ Hc) as (sm & Hsm & _).
  apply (wf_fresh _ Hwf). eauto.
Qed.

Lemma unknown_not_queued : cid ∉ purgeableClientIDsFIFO (smm r).
Proof.
  intros Hin. apply (wf_fifo_registered _ Hwf) in Hin as [? Hin].
  congruence.
Qed.

Lemma get_admits_wf purgeable :
  purgeable = false ∨
  List.length (purgeableClientIDsFIFO (smm r))
  ≠ maxPurgeableSubscriptionManagerClient →
  wf_registry
    (mkRegistry
       (mkSMM (<[cid := next_loc (heap r)]> (subscriptionManagers (smm r)))
              (purgeableClientIDsFIFO (smm r)
               ++ (if purgeable then [cid] else [])))
       (mkHeap (<[next_loc (heap r) := empty_manager cid]> (objects (heap r)))
               (S (next_loc (heap r))))
       (emit (NewOnlineStatusTracker cid) (world r))).
Proof.
  intros Hcase. constructor; cbn.
  - intros c l. destruct (decide (cid = c)) as [<-|Hne].
    + rewrite lookup_insert_eq. intros [= <-]. rewrite lookup_insert_eq.
      eexists. split; [done|]. apply wf_empty_manager.
    + rewrite lookup_insert_ne by done. intros Hc.
      pose proof (registered_below_next _ _ Hc).
      rewrite lookup_insert_ne by lia. by apply (wf_objects _ Hwf) in Hc.
  - intros l. destruct (decide (next_loc (heap r) = l)) as [<-|Hne]; [lia|].
    rewrite lookup_insert_ne by done. intros ?%(wf_fresh _ Hwf). lia.
  - intros c1 c2 l.
    destruct (decide (cid = c1)) as [<-|H1], (decide (cid = c2)) as [<-|H2];
      rewrite ?lookup_insert_eq, ?lookup_insert_ne by done; [done| | |].
    + intros [= <-] ?%registered_below_next. lia.
    + intros ?%registered_below_next [= <-]. lia.
    + apply (wf_distinct _ Hwf).
  - intros c [Hin|Hin]%elem_of_app.
    + apply (wf_fifo_registered _ Hwf) in Hin as [l Hl].
      destruct (decide (cid = c)) as [<-|?]; [congruence|].
      rewrite lookup_insert_ne by done. eauto.
    + destruct purgeable; [|by apply elem_of_nil in Hin].
      apply list_elem_of_singleton in Hin as ->.
      rewrite lookup_insert_eq. eauto.
  - destruct purgeable; [|rewrite app_nil_r; apply (wf_fifo_nodup _ Hwf)].
    apply NoDup_app. split; [apply (wf_fifo_nodup _ Hwf)|]. split.
    + intros c Hc ->%list_elem_of_singleton. by apply unknown_not_queued.
    + apply NoDup_singleton.
  - pose proof (wf_fifo_bound _ Hwf). rewrite length_app.
    destruct purgeable; cbn; [|lia].
    destruct Hcase as [?|?]; [done|]. lia.
Qed.

Lemma get_evicts_wf oldest rest lo smo :
  purgeableClientIDsFIFO (smm r) = oldest :: rest →
  subscriptionManagers (smm r) !! oldest = Some lo →
  objects (heap r) !! lo = Some smo →
  wf_registry
    (mkRegistry
       (mkSMM (<[cid := next_loc (heap r)]>
                 (delete oldest (subscriptionManagers (smm r))))
              (rest ++ [cid]))
       (mkHeap (<[next_loc (heap r) := empty_manager cid]>
                  (<[lo := (Shutdown smo (world r)).1]> (objects (heap r))))
               (S (next_loc (heap r))))
       (emit (NewOnlineStatusTracker cid) (Shutdown smo (world r)).2)).
Proof.
  intros Hfifo Hold Hobj.
  pose proof (wf_fifo_nodup _ Hwf) as Hnd. rewrite Hfifo in Hnd.
  apply NoDup_cons in Hnd as [Hnotin Hnd].
  pose proof (wf_fifo_bound _ Hwf) as Hbound. rewrite Hfifo in Hbound.
  pose proof (registered_below_next _ _ Hold) as Hlo.
  assert (Hrest : ∀ c, c ∈ rest → c ≠ oldest ∧ c ≠ cid ∧
                       is_Some (subscriptionManagers (smm r) !! c)).
  { intros c Hc. assert (c ∈ purgeableClientIDsFIFO (smm r)) as Hq
      by (rewrite Hfifo; by right).
    apply (wf_fifo_registered _ Hwf) in Hq as [l Hl].
    split; [by intros ->|]. split; [congruence|eauto]. }
  constructor; cbn.
  - intros c l. destruct (decide (cid = c)) as [<-|Hne].
    + rewrite lookup_insert_eq. intros [= <-]. rewrite lookup_insert_eq.
      eexists. split; [done|]. apply wf_empty_manager.
    + rewrite lookup_insert_ne by done.
      intros [Hco Hc]%lookup_delete_Some.
      pose proof (registered_below_next _ _ Hc).
      rewrite lookup_insert_ne by lia.
      rewrite lookup_insert_ne.
      * by apply (wf_objects _ Hwf) in Hc.
      * intros <-. apply Hco. by apply (wf_distinct _ Hwf _ _ _ Hold Hc).
  - intros l. destruct (decide (next_loc (heap r) = l)) as [<-|Hne]; [lia|].
    rewrite lookup_insert_ne by done.
    destruct (decide (lo = l)) as [<-|?]; [lia|].
    rewrite lookup_insert_ne by done. intros ?%(wf_fresh _ Hwf). lia.
  - intros c1 c2 l.
    destruct (decide (cid = c1)) as [<-|H1], (decide (cid = c2)) as [<-|H2];
      rewrite ?lookup_insert_eq, ?lookup_insert_ne by done; [done| | |].
    + intros [= <-] [_ ?%registered_below_next]%lookup_delete_Some. lia.
    + intros [_ ?%registered_below_next]%lookup_delete_Some [= <-]. lia.
    + intros [_ ?]%lookup_delete_Some [_ ?]%lookup_delete_Some.
      by apply (wf_distinct _ Hwf _ _ l).
  - intros c [Hin|Hin]%elem_of_app.
    + destruct (Hrest c Hin) as (? & ? & [l Hl]).
      rewrite lookup_insert_ne, lookup_delete_ne by done. eauto.
    + apply list_elem_of_singleton in Hin as ->.
      rewrite lookup_insert_eq. eauto.
  - apply NoDup_app. split; [done|]. split.
    + intros c Hc ->%list_elem_of_singleton. by destruct (Hrest cid Hc) as (_ & ? & _).
    + apply NoDup_singleton.
  - rewrite length_app. cbn in *. lia.
Qed.

End get_wf.

(** [get] of an unknown client never panics in a consistent registry and
    puts an empty manager at the next location. *)
Lemma get_unknown_creates c purgeable r :
  wf_registry r →
  subscriptionManagers (smm r) !! c = None →
  ∃ r', get c purgeable r = Some (next_loc (heap r), r') ∧
        objects (heap r') !! next_loc (heap r) = Some (empty_manager c).
Proof.
  intros Hwf Hnew.
  destruct (decide (purgeable = false ∨
                    List.length (purgeableClientIDsFIFO (smm r))
                    ≠ maxPurgeableSubscriptionManagerClient)) as [Hcase|Hcase].
  - eexists. split; [by apply get_admits|]. cbn. by rewrite lookup_insert_eq.
  - assert (purgeable = true) as -> by (destruct purgeable; tauto).
    assert (Hfull : List.length (purgeableClientIDsFIFO (smm r))
                    = maxPurgeableSubscriptionManagerClient)
      by (destruct (decide (List.length (purgeableClientIDsFIFO (smm r))
                            = maxPurgeableSubscriptionManagerClient)); tauto).
    destruct (purgeableClientIDsFIFO (smm r)) as [|oldest rest] eqn:Hfifo;
      [done|].
    destruct (wf_fifo_registered _ Hwf oldest) as [lo Hold];
      [rewrite Hfifo; by left|].
    destruct (wf_objects _ Hwf _ _ Hold) as (smo & Hobj & _).
    eexists. split.
    + apply (get_evicts c r Hnew oldest rest lo smo); [done| |done..].
      by rewrite Hfifo.
    + cbn. by rewrite lookup_insert_eq.
Qed.

(** C7.  In a consistent registry: [get] of a registered client returns its
    manager and changes nothing.  [get] of an unknown client returns a new,
    empty manager at a location no manager had, and keeps the registry
    consistent.  If the client is purgeable and three purgeable clients are
    queued, the first of the queue is shut down before the new manager is
    set up (every delivery of its manager gets its [shutdown] call and the
    manager keeps no subscription), it leaves the registry and the queue, and
    a later [get]
    of its ID creates another new, empty manager, not the old one.
    Otherwise nobody leaves and no delivery is shut down.  In both cases a
    registered client that is not in the queue keeps its place and its
    manager, and stays out of the queue. *)
Theorem get_returns_creates_or_evicts
    (cid : SubscriptionManagerClientID) (purgeable : bool) (r : Registry) :
  wf_registry r →
  (∀ l, subscriptionManagers (smm r) !! cid = Some l →
        get cid purgeable r = Some (l, r)) ∧
  (subscriptionManagers (smm r) !! cid = None →
   ∃ l r',
     get cid purgeable r = Some (l, r') ∧
     wf_registry r' ∧
     objects (heap r) !! l = None ∧
     subscriptionManagers (smm r') !! cid = Some l ∧
     objects (heap r') !! l = Some (empty_manager cid) ∧
     (if purgeable &&
         bool_decide (List.length (purgeableClientIDsFIFO (smm r))
                      = maxPurgeableSubscriptionManagerClient)
      then
        ∃ oldest rest lo smo,
          purgeableClientIDsFIFO (smm r) = oldest :: rest ∧
          subscriptionManagers (smm r) !! oldest = Some lo ∧
          objects (heap r) !! lo = Some smo ∧
          purgeableClientIDsFIFO (smm r') = rest ++ [cid] ∧
          subscriptionManagers (smm r')
          = <[cid := l]> (delete oldest (subscriptionManagers (smm r))) ∧
          subscriptionManagers (smm r') !! oldest = None ∧
          (∃ smo', objects (heap r') !! lo = Some smo' ∧
                   no_subscriptions smo') ∧
          (∃ es,
             emitted (world r) (world r')
             = es ++ [NewOnlineStatusTracker cid] ∧
             (∀ ref sid dn,
                keyed_at smo ref sid dn → ShutdownNotify (dn_id dn) ∈ es) ∧
             (∀ topic sid dn,
                keyed_at_topic smo topic sid dn →
                ShutdownNotify (dn_id dn) ∈ es)) ∧
          (∀ purgeable', ∃ l' r'',
             get oldest purgeable' r' = Some (l', r'') ∧
             l' ≠ lo ∧
             objects (heap r'') !! l' = Some (empty_manager oldest))
      else
        purgeableClientIDsFIFO (smm r')
        = purgeableClientIDsFIFO (smm r) ++ (if purgeable then [cid] else []) ∧
        subscriptionManagers (smm r')
        = <[cid := l]> (subscriptionManagers (smm r)) ∧
        objects (heap r') = <[l := empty_manager cid]> (objects (heap r)) ∧
        emitted (world r) (world r') = [NewOnlineStatusTracker cid]) ∧
     (∀ c lc,
        subscriptionManagers (smm r) !! c = Some lc →
        c ∉ purgeableClientIDsFIFO (smm r) →
        subscriptionManagers (smm r') !! c = Some lc ∧
        objects (heap r') !! lc = objects (heap r) !! lc ∧
        c ∉ purgeableClientIDsFIFO (smm r'))).
Proof.
  intros Hwf. split.
  { intros l Hl. unfold get. by rewrite Hl. }
  intros Hnew.
  assert (Hfresh : objects (heap r) !! next_loc (heap r) = None).
  { apply eq_None_not_Some. intros ?%(wf_fresh _ Hwf). lia. }
  destruct (purgeable &&
            bool_decide (List.length (purgeableClientIDsFIFO (smm r))
                         = maxPurgeableSubscriptionManagerClient)) eqn:Ecase.
  - apply andb_true_iff in Ecase as [-> Hlen%bool_decide_eq_true].
    destruct (purgeableClientIDsFIFO (smm r)) as [|oldest rest] eqn:Hfifo;
      [done|].
    destruct (wf_fifo_registered _ Hwf oldest) as [lo Hold];
      [rewrite Hfifo; by left|].
    destruct (wf_objects _ Hwf _ _ Hold) as (smo & Hobj & Hwfo).
    assert (Hlen' : List.length (purgeableClientIDsFIFO (smm r))
                    = maxPurgeableSubscriptionManagerClient)
      by by rewrite Hfifo.
    pose proof (get_evicts cid r Hnew oldest rest lo smo Hfifo Hlen' Hold Hobj)
      as Hget.
    pose proof (get_evicts_wf cid r Hwf Hnew oldest rest lo smo Hfifo Hold Hobj)
      as Hwf'.
    pose proof (registered_below_next r Hwf _ _ Hold) as Hlo.
    destruct (Shutdown_cancels_all smo (world r) Hwfo)
      as (_ & _ & Hnone & es & Hes & Hpath & Htopic).
    cbn zeta in *.
    assert (Hemitted : emitted (world r)
                         (emit (NewOnlineStatusTracker cid)
                               (Shutdown smo (world r)).2)
                       = es ++ [NewOnlineStatusTracker cid]).
    { apply emitted_app. unfold emit. cbn [effects].
      by rewrite Hes, <- app_assoc. }
    assert (Hoc : oldest ≠ cid) by congruence.
    eexists _, _. split; [exact Hget|]. split; [exact Hwf'|].
    cbn [smm heap world subscriptionManagers purgeableClientIDsFIFO objects
         next_loc].
    split; [done|]. split; [by rewrite lookup_insert_eq|].
    split; [by rewrite lookup_insert_eq|]. split.
    + exists oldest, rest, lo, smo.
      assert (Hgone : <[cid := next_loc (heap r)]>
                        (delete oldest (subscriptionManagers (smm r)))
                      !! oldest = None)
        by by rewrite lookup_insert_ne, lookup_delete_eq.
      repeat (split; [done|]).
      split; [|split].
      * eexists. split; [|exact Hnone].
        rewrite lookup_insert_ne by lia. by rewrite lookup_insert_eq.
      * by exists es.
      * intros purgeable'.
        destruct (get_unknown_creates oldest purgeable' _ Hwf' Hgone)
          as (r'' & Hget2 & Hobj2).
        eexists _, r''. split; [exact Hget2|].
        cbn [heap next_loc] in *. split; [lia|exact Hobj2].
    + intros c lc Hc Hnq.
      apply not_elem_of_cons in Hnq as [Hco Hnq].
      assert (c ≠ cid) by congruence.
      pose proof (registered_below_next r Hwf _ _ Hc).
      split; [by rewrite lookup_insert_ne, lookup_delete_ne|]. split.
      * rewrite lookup_insert_ne by lia. rewrite lookup_insert_ne; [done|].
        intros <-. apply Hco. by apply (wf_distinct _ Hwf _ _ _ Hc Hold).
      * intros [?|?%list_elem_of_singleton]%elem_of_app; done.
  - assert (Hcase : purgeable = false ∨
                    List.length (purgeableClientIDsFIFO (smm r))
                    ≠ maxPurgeableSubscriptionManagerClient).
    { destruct purgeable; [right|by left].
      cbn in Ecase. by apply bool_decide_eq_false in Ecase. }
    pose proof (get_admits cid r Hnew purgeable Hcase) as Hget.
    pose proof (get_admits_wf cid r Hwf Hnew purgeable Hcase) as Hwf'.
    eexists _, _. split; [exact Hget|]. split; [exact Hwf'|].
    cbn [smm heap world subscriptionManagers purgeableClientIDsFIFO objects
         next_loc].
    split; [done|]. split; [by rewrite lookup_insert_eq|].
    split; [by rewrite lookup_insert_eq|]. split.
    + repeat (split; [done|]). by apply emitted_app.
    + intros c lc Hc Hnq.
      assert (c ≠ cid) by congruence.
      pose proof (registered_below_next r Hwf _ _ Hc).
      split; [by rewrite lookup_insert_ne|].
      split; [by rewrite lookup_insert_ne by lia|].
      intros [?|Hin]%elem_of_app; [done|].
      destruct purgeable; [|by apply elem_of_nil in Hin].
      by apply list_elem_of_singleton in Hin.
Qed.

(** ** The invariants hold in every state the operations reach *)

Lemma inactive_not_indexed sm sid :
  wf_manager sm → bool_at (subscriptionIDs sm) sid = false →
  pathSubscriptionIDToRef sm !! sid = None ∧
  nonPathSubscriptionIDToTopic sm !! sid = None.
Proof.
  intros Hwf Hb.
  assert (¬ (is_Some (pathSubscriptionIDToRef sm !! sid) ∨
             is_Some (nonPathSubscriptionIDToTopic sm !! sid))) as Hn.
  { intros H%(wf_active _ Hwf). congruence. }
  split; apply eq_None_not_Some; tauto.
Qed.

(** Adding a path subscription with an inactive SID keeps a manager
    consistent, whatever becomes of the reference counts. *)
Lemma wf_add_path sm ref sid dn counts :
  wf_manager sm → bool_at (subscriptionIDs sm) sid = false →
  wf_manager
    (mkSM (clientID sm)
          (<[ref := <[sid := dn]> (default ∅ (pathSubscriptions sm !! ref))]>
             (pathSubscriptions sm))
          (<[sid := ref]> (pathSubscriptionIDToRef sm))
          (nonPathSubscriptions sm) (nonPathSubscriptionIDToTopic sm)
          (<[sid := true]> (subscriptionIDs sm)) counts).
Proof.
  intros Hwf Hb.
  destruct (inactive_not_indexed sm sid Hwf Hb) as [Hnp Hnt].
  set (sm' := mkSM _ _ _ _ _ _ _).
  assert (Hkeyed : ∀ ref' sid' dn',
            keyed_at sm' ref' sid' dn'
            ↔ (ref' = ref ∧ sid' = sid ∧ dn' = dn) ∨
              keyed_at sm ref' sid' dn').
  { intros ref' sid' dn'. unfold keyed_at. cbn [pathSubscriptions sm'].
    destruct (decide (ref' = ref)) as [->|Hne].
    - rewrite lookup_insert_eq. split.
      + intros (b' & [= <-] & Hs').
        destruct (decide (sid' = sid)) as [->|Hsid].
        * rewrite lookup_insert_eq in Hs'. injection Hs' as <-. by left.
        * rewrite lookup_insert_ne in Hs' by done. right.
          destruct (pathSubscriptions sm !! ref) as [b|]; cbn in Hs'; [eauto|].
          by rewrite lookup_empty in Hs'.
      + intros [(_ & -> & ->)|(b & Hb' & Hs')].
        * eexists. split; [done|]. by rewrite lookup_insert_eq.
        * rewrite Hb'. cbn. eexists. split; [done|].
          rewrite lookup_insert_ne; [done|]. intros <-.
          assert (keyed_at sm ref sid dn') as Hk by (by exists b).
          apply (wf_path_bwd _ Hwf) in Hk. congruence.
    - rewrite lookup_insert_ne by done. split; [by right|].
      by intros [(? & _)|?]. }
  constructor; cbn [pathSubscriptionIDToRef nonPathSubscriptions
                    nonPathSubscriptionIDToTopic subscriptionIDs
                    pathSubscriptions sm'].
  - intros sid' ref'. destruct (decide (sid = sid')) as [<-|Hne].
    + rewrite lookup_insert_eq. intros [= <-]. exists dn. apply Hkeyed. by left.
    + rewrite lookup_insert_ne by done. intros Hl.
      destruct (wf_path_fwd _ Hwf _ _ Hl) as (dn' & Hk).
      exists dn'. apply Hkeyed. by right.
  - intros ref' sid' dn' [(-> & -> & ->)|Hk]%Hkeyed.
    + by rewrite lookup_insert_eq.
    + apply (wf_path_bwd _ Hwf) in Hk.
      rewrite lookup_insert_ne; [done|]. congruence.
  - intros ref'. destruct (decide (ref = ref')) as [<-|Hne].
    + rewrite lookup_insert_eq. intros [= H]. by apply insert_non_empty in H.
    + rewrite lookup_insert_ne by done. apply (wf_buckets _ Hwf).
  - apply (wf_topic_fwd _ Hwf).
  - apply (wf_topic_bwd _ Hwf).
  - intros sid'. unfold bool_at. destruct (decide (sid = sid')) as [<-|Hne].
    + rewrite !lookup_insert_eq. cbn. split; [eauto|done].
    + rewrite !lookup_insert_ne by done. apply (wf_active _ Hwf).
  - intros sid' b. destruct (decide (sid = sid')) as [<-|Hne].
    + rewrite lookup_insert_eq. by intros [= <-].
    + rewrite lookup_insert_ne by done. apply (wf_active_true _ Hwf).
  - intros sid'. destruct (decide (sid = sid')) as [<-|Hne]; [done|].
    rewrite lookup_insert_ne by done. apply (wf_exclusive _ Hwf).
Qed.

(** The same for a non-path subscription. *)
Lemma wf_add_topic sm topic sid dn :
  wf_manager sm → bool_at (subscriptionIDs sm) sid = false →
  wf_manager
    (mkSM (clientID sm) (pathSubscriptions sm) (pathSubscriptionIDToRef sm)
          (<[topic := <[sid := dn]>
                        (default ∅ (nonPathSubscriptions sm !! topic))]>
             (nonPathSubscriptions sm))
          (<[sid := topic]> (nonPathSubscriptionIDToTopic sm))
          (<[sid := true]> (subscriptionIDs sm))
          (subscriptionCountByFolderBranch sm)).
Proof.
  intros Hwf Hb.
  destruct (inactive_not_indexed sm sid Hwf Hb) as [Hnp Hnt].
  set (sm' := mkSM _ _ _ _ _ _ _).
  assert (Hkeyed : ∀ topic' sid' dn',
            keyed_at_topic sm' topic' sid' dn'
            ↔ (topic' = topic ∧ sid' = sid ∧ dn' = dn) ∨
              keyed_at_topic sm topic' sid' dn').
  { intros topic' sid' dn'. unfold keyed_at_topic.
    cbn [nonPathSubscriptions sm'].
    destruct (decide (topic' = topic)) as [->|Hne].
    - rewrite lookup_insert_eq. split.
      + intros (b' & [= <-] & Hs').
        destruct (decide (sid' = sid)) as [->|Hsid].
        * rewrite lookup_insert_eq in Hs'. injection Hs' as <-. by left.
        * rewrite lookup_insert_ne in Hs' by done. right.
          destruct (nonPathSubscriptions sm !! topic) as [b|]; cbn in Hs';
            [eauto|]. by rewrite lookup_empty in Hs'.
      + intros [(_ & -> & ->)|(b & Hb' & Hs')].
        * eexists. split; [done|]. by rewrite lookup_insert_eq.
        * rewrite Hb'. cbn. eexists. split; [done|].
          rewrite lookup_insert_ne; [done|]. intros <-.
          assert (keyed_at_topic sm topic sid dn') as Hk by (by exists b).
          apply (wf_topic_bwd _ Hwf) in Hk. congruence.
    - rewrite lookup_insert_ne by done. split; [by right|].
      by intros [(? & _)|?]. }
  constructor; cbn [pathSubscriptionIDToRef nonPathSubscriptions
                    nonPathSubscriptionIDToTopic subscriptionIDs
                    pathSubscriptions sm'].
  - apply (wf_path_fwd _ Hwf).
  - apply (wf_path_bwd _ Hwf).
  - apply (wf_buckets _ Hwf).
  - intros sid' topic'. destruct (decide (sid = sid')) as [<-|Hne].
    + rewrite lookup_insert_eq. intros [= <-]. exists dn. apply Hkeyed. by left.
    + rewrite lookup_insert_ne by done. intros Hl.
      destruct (wf_topic_fwd _ Hwf _ _ Hl) as (dn' & Hk).
      exists dn'. apply Hkeyed. by right.
  - intros topic' sid' dn' [(-> & -> & ->)|Hk]%Hkeyed.
    + by rewrite lookup_insert_eq.
    + apply (wf_topic_bwd _ Hwf) in Hk.
      rewrite lookup_insert_ne; [done|]. congruence.
  - intros sid'. unfold bool_at. destruct (decide (sid = sid')) as [<-|Hne].
    + rewrite !lookup_insert_eq. cbn. split; [eauto|done].
    + rewrite !lookup_insert_ne by done. apply (wf_active _ Hwf).
  - intros sid' b. destruct (decide (sid = sid')) as [<-|Hne].
    + rewrite lookup_insert_eq. by intros [= <-].
    + rewrite lookup_insert_ne by done. apply (wf_active_true _ Hwf).
  - intros sid' Hp. destruct (decide (sid = sid')) as [<-|Hne].
    + rewrite Hnp in Hp. by destruct Hp.
    + rewrite lookup_insert_ne by done. by apply (wf_exclusive _ Hwf).
Qed.

Lemma subscribePath_fresh cfg sid p topic d n sm w parsed fb :
  parsePath cfg p = inr parsed →
  getFolderBranch cfg parsed = inr fb →
  fb ≠ zeroFolderBranch →
  bool_at (subscriptionIDs sm) sid = false →
  ∃ dn counts w',
    subscribePath cfg sid p topic d n sm w
    = (None,
       mkSM (clientID sm)
            (<[mkRef fb (getCleanInTlfPath cfg parsed) :=
                 <[sid := dn]>
                   (default ∅ (pathSubscriptions sm
                               !! mkRef fb (getCleanInTlfPath cfg parsed)))]>
               (pathSubscriptions sm))
            (<[sid := mkRef fb (getCleanInTlfPath cfg parsed)]>
               (pathSubscriptionIDToRef sm))
            (nonPathSubscriptions sm) (nonPathSubscriptionIDToTopic sm)
            (<[sid := true]> (subscriptionIDs sm)) counts,
       w').
Proof.
  intros Hp Hfb Hz Hb. unfold subscribePath, checkSubscriptionIDLocked.
  rewrite Hp, Hfb, decide_False, Hb by done.
  unfold registerForChangesLocked, debounce,
    with_subscriptionCountByFolderBranch, with_pathSubscriptions,
    with_pathSubscriptionIDToRef, with_subscriptionIDs.
  cbn.
  destruct (pathSubscriptions sm !! _) as [b|] eqn:E; cbn.
  - rewrite E. cbn. by eexists _, _, _.
  - rewrite lookup_insert_eq, insert_insert_eq. cbn. by eexists _, _, _.
Qed.

Lemma subscribeNonPath_fresh sid topic d n sm w :
  bool_at (subscriptionIDs sm) sid = false →
  ∃ dn w',
    subscribeNonPath sid topic d n sm w
    = (None,
       mkSM (clientID sm) (pathSubscriptions sm) (pathSubscriptionIDToRef sm)
            (<[topic := <[sid := dn]>
                          (default ∅ (nonPathSubscriptions sm !! topic))]>
               (nonPathSubscriptions sm))
            (<[sid := topic]> (nonPathSubscriptionIDToTopic sm))
            (<[sid := true]> (subscriptionIDs sm))
            (subscriptionCountByFolderBranch sm),
       w').
Proof.
  intros Hb. unfold subscribeNonPath, checkSubscriptionIDLocked.
  rewrite Hb.
  unfold debounce, with_nonPathSubscriptions,
    with_nonPathSubscriptionIDToTopic, with_subscriptionIDs.
  cbn.
  destruct (nonPathSubscriptions sm !! topic) as [b|] eqn:E; cbn.
  - rewrite E. cbn. by eexists _, _.
  - rewrite lookup_insert_eq, insert_insert_eq. cbn. by eexists _, _.
Qed.

Lemma subscribePath_wf cfg sid p topic d n sm w :
  wf_manager sm →
  wf_manager (after (subscribePath cfg sid p topic d n sm w)).1.
Proof.
  intros Hwf.
  destruct (parsePath cfg p) as [e|parsed] eqn:Hp;
    [unfold subscribePath; by rewrite Hp|].
  destruct (getFolderBranch cfg parsed) as [e|fb] eqn:Hfb;
    [unfold subscribePath; by rewrite Hp, Hfb|].
  destruct (decide (fb = zeroFolderBranch)) as [->|Hz].
  { unfold subscribePath. by rewrite Hp, Hfb, decide_True. }
  destruct (bool_at (subscriptionIDs sm) sid) eqn:Hb.
  - unfold subscribePath.
    by rewrite Hp, Hfb, decide_False, checkSubscriptionIDLocked_active.
  - destruct (subscribePath_fresh cfg sid p topic d n sm w parsed fb
                Hp Hfb Hz Hb) as (dn & counts & w' & ->).
    by apply wf_add_path.
Qed.

Lemma subscribeNonPath_wf sid topic d n sm w :
  wf_manager sm →
  wf_manager (after (subscribeNonPath sid topic d n sm w)).1.
Proof.
  intros Hwf. destruct (bool_at (subscriptionIDs sm) sid) eqn:Hb.
  - unfold subscribeNonPath. by rewrite checkSubscriptionIDLocked_active.
  - destruct (subscribeNonPath_fresh sid topic d n sm w Hb) as (dn & w' & ->).
    by apply wf_add_topic.
Qed.

Lemma unsubscribePath_wf sid sm w :
  wf_manager sm → wf_manager (unsubscribePath sid sm w).1.
Proof.
  intros Hwf.
  destruct (pathSubscriptionIDToRef sm !! sid) as [ref|] eqn:E.
  - by destruct (unsubscribePath_step sid sm w ref Hwf E) as [? _].
  - by rewrite unsubscribePath_absent.
Qed.

Lemma unsubscribeNonPath_wf sid sm w :
  wf_manager sm → wf_manager (unsubscribeNonPath sid sm w).1.
Proof.
  intros Hwf.
  destruct (nonPathSubscriptionIDToTopic sm !! sid) as [topic|] eqn:E.
  - by destruct (unsubscribeNonPath_step sid sm w topic Hwf E) as [? _].
  - by rewrite unsubscribeNonPath_absent.
Qed.

Lemma at_manager_wf l f r r' :
  (∀ sm w, wf_manager sm → wf_manager (f sm w).1) →
  wf_registry r → at_manager l f r = Some r' → wf_registry r'.
Proof.
  intros Hf Hwf. unfold at_manager.
  destruct (objects (heap r) !! l) as [sm|] eqn:El; [|done].
  cbn. intros [= <-]. constructor; cbn.
  - intros c lc Hc. destruct (wf_objects _ Hwf _ _ Hc) as (smc & Hsmc & Hwfc).
    destruct (decide (l = lc)) as [<-|Hne].
    + rewrite lookup_insert_eq. eexists. split; [done|].
      apply Hf. congruence.
    + rewrite lookup_insert_ne by done. eauto.
  - intros l'. destruct (decide (l = l')) as [<-|Hne].
    + intros _. apply (wf_fresh _ Hwf). eauto.
    + rewrite lookup_insert_ne by done. apply (wf_fresh _ Hwf).
  - apply (wf_distinct _ Hwf).
  - apply (wf_fifo_registered _ Hwf).
  - apply (wf_fifo_nodup _ Hwf).
  - apply (wf_fifo_bound _ Hwf).
Qed.

Lemma get_wf cid purgeable r l r' :
  wf_registry r → get cid purgeable r = Some (l, r') → wf_registry r'.
Proof.
  intros Hwf Hget.
  destruct (subscriptionManagers (smm r) !! cid) as [l0|] eqn:E.
  - unfold get in Hget. rewrite E in Hget. by injection Hget as <- <-.
  - destruct (decide (purgeable = false ∨
                      List.length (purgeableClientIDsFIFO (smm r))
                      ≠ maxPurgeableSubscriptionManagerClient))
      as [Hcase|Hcase].
    + rewrite (get_admits cid r E purgeable Hcase) in Hget.
      injection Hget as <- <-. by apply get_admits_wf.
    + assert (purgeable = true) as -> by (destruct purgeable; tauto).
      assert (Hfull : List.length (purgeableClientIDsFIFO (smm r))
                      = maxPurgeableSubscriptionManagerClient)
        by (destruct (decide (List.length (purgeableClientIDsFIFO (smm r))
                              = maxPurgeableSubscriptionManagerClient));
            tauto).
      destruct (purgeableClientIDsFIFO (smm r)) as [|oldest rest] eqn:Hfifo;
        [done|].
      destruct (wf_fifo_registered _ Hwf oldest) as [lo Hold];
        [rewrite Hfifo; by left|].
      destruct (wf_objects _ Hwf _ _ Hold) as (smo & Hobj & _).
      rewrite (get_evicts cid r E oldest rest lo smo) in Hget;
        [|done|by rewrite Hfifo|done..].
      injection Hget as <- <-. by apply get_evicts_wf.
Qed.

Lemma Unsubscribe_wf sid sm w :
  wf_manager sm → wf_manager (Unsubscribe sid sm w).1.
Proof.
  intros Hwf. unfold Unsubscribe.
  pose proof (unsubscribePath_wf sid sm w Hwf) as H1.
  destruct (unsubscribePath sid sm w) as [sm1 w1].
  by apply unsubscribeNonPath_wf.
Qed.

(** Every registry reached from a consistent one is consistent. *)
Lemma registry_run_wf ops :
  ∀ r r', wf_registry r → registry_run ops r = Some r' → wf_registry r'.
Proof.
  induction ops as [|op ops IH]; intros r r' Hwf Hrun; cbn in Hrun.
  - by injection Hrun as <-.
  - destruct (registry_step r op) as [r1|] eqn:E; [|done].
    apply (IH r1 r'); [|done]. clear Hrun IH.
    destruct op as [cid purgeable|l cfg sid p topic d n|l sid topic d n|l sid];
      cbn in E.
    + destruct (get cid purgeable r) as [[l r2]|] eqn:Hget; [|done].
      cbn in E. injection E as <-. by apply (get_wf cid purgeable r l).
    + apply (at_manager_wf _ _ _ _
               (λ sm w, subscribePath_wf cfg sid p topic d n sm w) Hwf E).
    + apply (at_manager_wf _ _ _ _
               (λ sm w, subscribeNonPath_wf sid topic d n sm w) Hwf E).
    + apply (at_manager_wf _ _ _ _ (Unsubscribe_wf sid) Hwf E).
Qed.

(** A fourth purgeable client arrives at the registry of [fill_registry]. *)
Lemma get_returns_creates_or_evicts_witness :
  wf_registry full_registry ∧
  purgeableClientIDsFIFO (smm full_registry) = ["a"; "b"; "c"] ∧
  ∃ l r',
    get "d" true full_registry = Some (l, r') ∧
    purgeableClientIDsFIFO (smm r') = ["b"; "c"; "d"] ∧
    subscriptionManagers (smm r') !! "a" = None ∧
    subscriptionManagers (smm r') !! "prefetcher" = Some 2%nat ∧
    objects (heap r') !! l = Some (empty_manager "d") ∧
    ShutdownNotify 0 ∈ emitted (world full_registry) (world r') ∧
    ShutdownNotify 1 ∈ emitted (world full_registry) (world r').
Proof.
  assert (Hwf : wf_registry full_registry).
  { apply (registry_run_wf fill_registry newRegistry);
      [apply wf_newRegistry | by vm_compute]. }
  split; [exact Hwf|]. split; [by vm_compute|].
  destruct (get_returns_creates_or_evicts "d" true full_registry Hwf)
    as [_ Hcreate].
  destruct Hcreate as (l & r' & Hget & _ & _ & _ & Hobj & Hevict & Hkeep);
    [by vm_compute|].
  assert (Hfull : bool_decide
                    (List.length (purgeableClientIDsFIFO (smm full_registry))
                     = maxPurgeableSubscriptionManagerClient) = true)
    by by vm_compute.
  rewrite Hfull in Hevict. cbn [andb] in Hevict.
  destruct Hevict as (oldest & rest & lo & smo & Hfifo & Hold & Hsmo & Hfifo'
                      & _ & Hgone & _ & (es & Hes & Hpath & Htopic) & _).
  assert (oldest = "a" ∧ rest = ["b"; "c"]) as [-> ->].
  { vm_compute in Hfifo. by injection Hfifo as <- <-. }
  assert (lo = 0%nat) as -> by (vm_compute in Hold; by injection Hold as <-).
  exists l, r'. split; [exact Hget|]. split; [exact Hfifo'|].
  split; [exact Hgone|]. split.
  { destruct (Hkeep "prefetcher" 2%nat) as [? _]; [by vm_compute| |done].
    vm_compute. intros Hin. repeat (apply elem_of_cons in Hin as [?|Hin];
                                    [discriminate|]).
    by apply elem_of_nil in Hin. }
  split; [exact Hobj|]. rewrite Hes. split; apply elem_of_app; left.
  - apply (Hpath (mkRef testFB "/x") "s1"
             (mkDebounced 0 (OnPathChange 1 "a" "s1" "/x" 0) Inf)).
    vm_compute in Hsmo. injection Hsmo as <-.
    eexists. split; by vm_compute.
  - apply (Htopic SubscriptionTopic_ONLINE_STATUS "s2"
             (mkDebounced 1 (OnNonPathChange 1 "a" "s2"
                               SubscriptionTopic_ONLINE_STATUS) Inf)).
    vm_compute in Hsmo. injection Hsmo as <-.
    eexists. split; by vm_compute.
Defined.


(** * Further properties of the code *)

(** ** Path helpers *)

(** A string splits at the last occurrence of a byte. *)
Lemma split_at_last (c : ascii) (s : string) :
  ∀ k, Paths.LastIndexByte s c = Z.of_nat k →
       ∃ rest, s = substring 0 k s +:+ String c rest ∧
               Paths.LastIndexByte rest c = -1.
Proof.
  induction s as [|a s IH]; intros k Hk.
  - unfold Paths.LastIndexByte in Hk. cbn in Hk. lia.
  - unfold Paths.LastIndexByte in Hk.
    cbn [Paths.LastIndexByte_from] in Hk.
    destruct (PathFacts.LastIndexByte_from_shape c s (0 + 1)
                (if Ascii.eqb a c then 0 else -1))
      as [[E1 E0]|(k' & Hk' & E1 & E0)]; rewrite E1 in Hk.
    + destruct (Ascii.eqb a c) eqn:Ea; [|lia].
      apply Ascii.eqb_eq in Ea as ->. assert (k = 0%nat) as -> by lia.
      exists s. split; [|done]. by destruct s.
    + assert (k = S (Z.to_nat k')) as -> by lia.
      destruct (IH (Z.to_nat k')) as (rest & Hs & Hrest).
      { unfold Paths.LastIndexByte. lia. }
      exists rest. split; [|done].
      cbn [substring].
      change (String a ?x +:+ ?y) with (String a (x +:+ y)).
      by rewrite <- Hs.
Qed.

(** X1.  [getParentPath] finds a parent exactly for the paths of the form
    parent, separator, last component, with a parent that is not empty; the
    parent it returns is that one, so it is a proper prefix of the path and
    never the empty string. *)
Theorem getParentPath_splits_last_component (p q : string) :
  Paths.getParentPath p = (q, true)
  ↔ q ≠ "" ∧
    ∃ name, Paths.component name ∧ p = q +:+ String Paths.slash name.
Proof.
  split.
  - unfold Paths.getParentPath.
    destruct (Z.leb_spec (Paths.LastIndexByte p Paths.slash) 0) as [|Hpos];
      [done|]. intros [= <-].
    destruct (split_at_last Paths.slash p
                (Z.to_nat (Paths.LastIndexByte p Paths.slash)))
      as (rest & Hp & Hrest); [lia|].
    split.
    + intros Hq. rewrite Hq in Hp. rewrite Hp in Hpos.
      unfold Paths.LastIndexByte in Hpos.
      change ("" +:+ ?x) with x in Hpos.
      cbn [Paths.LastIndexByte_from] in Hpos.
      rewrite Ascii.eqb_refl in Hpos.
      rewrite PathFacts.LastIndexByte_from_absent in Hpos by done. lia.
    + by exists rest.
  - intros (Hq & name & Hn & ->). by apply PathFacts.getParentPath_child.
Qed.

(** ** Reference counts *)

Lemma wrap64_id z : is_int z → wrap64 z = z.
Proof.
  unfold is_int, wrap64. intros Hz.
  rewrite Z.mod_small by lia. lia.
Qed.

Lemma wrap64_is_int z : is_int (wrap64 z).
Proof.
  unfold is_int, wrap64.
  pose proof (Z.mod_pos_bound (z + 2 ^ 63) (2 ^ 64) ltac:(lia)). lia.
Qed.

Lemma wrap64_succ_pred z : is_int z → wrap64 (wrap64 (z + 1) - 1) = z.
Proof.
  unfold is_int, wrap64. intros Hz.
  destruct (decide (z = 2 ^ 63 - 1)) as [->|Hne].
  - by vm_compute.
  - rewrite (Z.mod_small (z + 1 + 2 ^ 63)) by lia.
    replace (z + 1 + 2 ^ 63 - 2 ^ 63 - 1 + 2 ^ 63) with (z + 2 ^ 63) by lia.
    rewrite Z.mod_small by lia. lia.
Qed.

Lemma wrap64_succ_one z : is_int z → wrap64 (z + 1) = 1 → z = 0.
Proof.
  unfold is_int, wrap64. intros Hz.
  destruct (decide (z = 2 ^ 63 - 1)) as [->|Hne].
  - by vm_compute.
  - rewrite Z.mod_small by lia. lia.
Qed.

Lemma int_at_insert `{Countable K} (m : gmap K Z) (k k' : K) (z : Z) :
  int_at (<[k := z]> m) k' = if decide (k = k') then z else int_at m k'.
Proof. unfold int_at. rewrite lookup_insert. by case_decide. Qed.

Lemma int_at_delete `{Countable K} (m : gmap K Z) (k k' : K) :
  int_at (delete k m) k' = if decide (k = k') then 0 else int_at m k'.
Proof. unfold int_at. rewrite lookup_delete. by case_decide. Qed.

(** X2.  [registerForChangesLocked] followed by [unregisterForChangesLocked]
    for the same container gives every container its count back and leaves
    the rest of the manager alone; the notifier is called, once to register
    and once to unregister, exactly when the count was zero. *)
Theorem register_unregister_balanced
    (fb : FolderBranch) (sm : subscriptionManager) (w : World) :
  is_int (int_at (subscriptionCountByFolderBranch sm) fb) →
  let s1 := registerForChangesLocked fb sm w in
  let s2 := unregisterForChangesLocked fb s1.1 s1.2 in
  (∀ fb', int_at (subscriptionCountByFolderBranch s2.1) fb'
          = int_at (subscriptionCountByFolderBranch sm) fb') ∧
  with_subscriptionCountByFolderBranch
    (λ _, subscriptionCountByFolderBranch sm) s2.1 = sm ∧
  emitted w s2.2
  = if int_at (subscriptionCountByFolderBranch sm) fb =? 0
    then [RegisterForChanges fb; UnregisterFromChanges fb] else [].
Proof.
  intros Hint. cbn zeta.
  unfold registerForChangesLocked, unregisterForChangesLocked.
  cbn [fst snd]. unfold with_subscriptionCountByFolderBranch.
  cbn [subscriptionCountByFolderBranch clientID pathSubscriptions
       pathSubscriptionIDToRef nonPathSubscriptions
       nonPathSubscriptionIDToTopic subscriptionIDs].
  rewrite int_at_insert, decide_True by done.
  set (c := int_at (subscriptionCountByFolderBranch sm) fb) in *.
  destruct (Z.eqb_spec c 0) as [Hc|Hc].
  - rewrite Hc. change (wrap64 (0 + 1) =? 1) with true. cbn [fst snd].
    cbn [subscriptionCountByFolderBranch clientID pathSubscriptions
         pathSubscriptionIDToRef nonPathSubscriptions
         nonPathSubscriptionIDToTopic subscriptionIDs].
    split; [|split].
    + intros fb'. rewrite int_at_delete, int_at_insert.
      case_decide; [subst; by rewrite <- Hc|done].
    + by destruct sm.
    + apply emitted_app. unfold emit. cbn. by rewrite <- app_assoc.
  - destruct (Z.eqb_spec (wrap64 (c + 1)) 1) as [H1|H1].
    { by apply wrap64_succ_one in H1. }
    cbn [fst snd].
    cbn [subscriptionCountByFolderBranch clientID pathSubscriptions
         pathSubscriptionIDToRef nonPathSubscriptions
         nonPathSubscriptionIDToTopic subscriptionIDs].
    split; [|split].
    + intros fb'. rewrite !int_at_insert.
      case_decide; [subst; by apply wrap64_succ_pred|done].
    + by destruct sm.
    + apply emitted_app. by rewrite app_nil_r.
Qed.

Lemma register_unregister_balanced_witness :
  let s1 := registerForChangesLocked testFB testManager newWorld in
  let s2 := unregisterForChangesLocked testFB s1.1 s1.2 in
  int_at (subscriptionCountByFolderBranch s1.1) testFB = 1 ∧
  int_at (subscriptionCountByFolderBranch s2.1) testFB = 0 ∧
  emitted newWorld s2.2
  = [RegisterForChanges testFB; UnregisterFromChanges testFB].
Proof.
  cbn zeta.
  destruct (register_unregister_balanced testFB testManager newWorld)
    as (Hcount & _ & Hemit); [by vm_compute|].
  cbn zeta in *. split; [by vm_compute|]. split; [apply Hcount|exact Hemit].
Defined.

(** ** The manager's indices *)

Lemma manager_step_wf s op : wf_manager s.1 → wf_manager (manager_step s op).1.
Proof.
  intros Hwf. destruct op; cbn [manager_step].
  - by apply subscribePath_wf.
  - by apply subscribeNonPath_wf.
  - by apply unsubscribePath_wf.
  - by apply unsubscribeNonPath_wf.
  - by apply Unsubscribe_wf.
Qed.

Lemma manager_run_wf ops : ∀ s, wf_manager s.1 → wf_manager (manager_run ops s).1.
Proof.
  induction ops as [|op ops IH]; intros s Hwf; [done|].
  cbn. apply IH. by apply manager_step_wf.
Qed.

(** X3.  After any sequence of subscribe and unsubscribe calls on a new
    manager the indices are consistent: a delivery is stored under a path key
    (a topic) exactly when the reverse index maps its SID to that key (that
    topic), no path bucket is empty, and the active SIDs are those of the two
    reverse indices, each of them in one index only. *)
Theorem manager_indices_stay_consistent
    (cid : SubscriptionManagerClientID) (w : World) (ops : list ManagerOp) :
  let sm := (manager_run ops (newSubscriptionManager cid w)).1 in
  wf_manager sm ∧
  ∀ sid,
    bool_at (subscriptionIDs sm) sid = true
    ↔ (is_Some (pathSubscriptionIDToRef sm !! sid) ∧
       nonPathSubscriptionIDToTopic sm !! sid = None) ∨
      (pathSubscriptionIDToRef sm !! sid = None ∧
       is_Some (nonPathSubscriptionIDToTopic sm !! sid)).
Proof.
  cbn zeta.
  assert (Hwf : wf_manager (manager_run ops (newSubscriptionManager cid w)).1).
  { apply manager_run_wf. apply wf_empty_manager. }
  split; [exact Hwf|]. intros sid.
  rewrite (wf_active _ Hwf). split.
  - intros [Hp|Ht].
    + left. split; [done|]. by apply (wf_exclusive _ Hwf).
    + right. split; [|done]. apply eq_None_not_Some. intros Hp.
      apply (wf_exclusive _ Hwf) in Hp. rewrite Hp in Ht. by destruct Ht.
  - intros [[? _]|[_ ?]]; eauto.
Qed.

(** ** Shutting a manager down, again *)

Lemma Shutdown_stops_tracker_first sm w :
  wf_manager sm →
  ∃ es, effects (Shutdown sm w).2
        = effects w ++ ShutdownOnlineStatusTracker (clientID sm) :: es.
Proof.
  intros Hwf. unfold Shutdown. cbn zeta.
  set (w0 := emit (ShutdownOnlineStatusTracker (clientID sm)) w).
  set (l1 := (map_to_list (pathSubscriptionIDToRef sm)).*1).
  set (l2 := (map_to_list (nonPathSubscriptionIDToTopic sm)).*1).
  destruct (unsubscribePath_loop l1 sm w0 Hwf)
    as (Hwf1 & _ & _ & _ & Ht1 & _ & _ & es1 & He1 & _).
  { apply NoDup_fst_map_to_list. }
  { intros sid. apply elem_of_keys. }
  cbn zeta in *.
  destruct (foldl (λ s sid, unsubscribePath sid s.1 s.2) (sm, w0) l1)
    as [sm1 w1]. cbn [fst snd] in *.
  destruct (unsubscribeNonPath_loop l2 sm1 w1 Hwf1)
    as (_ & _ & _ & _ & _ & _ & _ & es2 & He2 & _).
  { apply NoDup_fst_map_to_list. }
  { intros sid. rewrite Ht1. apply elem_of_keys. }
  cbn zeta in *. exists (es1 ++ es2).
  rewrite He2, He1. subst w0. cbn. by rewrite <- !app_assoc.
Qed.

Lemma Shutdown_without_subscriptions sm w :
  no_subscriptions sm →
  Shutdown sm w = (sm, emit (ShutdownOnlineStatusTracker (clientID sm)) w).
Proof.
  intros (_ & Hp & _ & Ht & _). unfold Shutdown.
  by rewrite Hp, Ht, !map_to_list_empty.
Qed.

(** X4.  [Shutdown] of a manager with consistent indices first stops the
    online status tracker, then shuts down every stored delivery, path and
    non-path, and leaves no subscription and no active SID; the client ID
    stays.  A second [Shutdown] only stops the tracker again. *)
Theorem Shutdown_cancels_every_subscription
    (sm : subscriptionManager) (w : World) :
  wf_manager sm →
  let s' := Shutdown sm w in
  no_subscriptions s'.1 ∧
  clientID s'.1 = clientID sm ∧
  (∃ es,
     emitted w s'.2 = ShutdownOnlineStatusTracker (clientID sm) :: es ∧
     (∀ ref sid dn, keyed_at sm ref sid dn → ShutdownNotify (dn_id dn) ∈ es) ∧
     (∀ topic sid dn, keyed_at_topic sm topic sid dn →
                      ShutdownNotify (dn_id dn) ∈ es)) ∧
  Shutdown s'.1 s'.2
  = (s'.1, emit (ShutdownOnlineStatusTracker (clientID sm)) s'.2).
Proof.
  intros Hwf. cbn zeta.
  destruct (Shutdown_cancels_all sm w Hwf)
    as (_ & Hc & Hnone & es & Hes & Hpath & Htopic).
  destruct (Shutdown_stops_tracker_first sm w Hwf) as (es' & Hes').
  cbn zeta in *.
  assert (es = ShutdownOnlineStatusTracker (clientID sm) :: es') as Heq.
  { rewrite Hes in Hes'. by apply app_inv_head in Hes'. }
  split; [done|]. split; [done|]. split.
  - exists es'. split; [by apply emitted_app|].
    assert (Hdrop : ∀ id, ShutdownNotify id ∈ es → ShutdownNotify id ∈ es').
    { intros id. rewrite Heq. by intros [?|?]%elem_of_cons. }
    split; intros; eapply Hdrop; eauto.
  - rewrite Shutdown_without_subscriptions by done. by rewrite Hc.
Qed.

Lemma run_ops_wf cfg ops :
  ∀ s, wf_manager s.1 → wf_manager (run_ops cfg ops s).1.
Proof.
  induction ops as [|op ops IH]; intros s Hwf; [done|].
  cbn. apply IH. destruct op; cbn [apply_op].
  - by apply subscribePath_wf.
  - by apply unsubscribePath_wf.
Qed.

Lemma mixed_subscriptions_wf : wf_manager mixed_subscriptions.1.
Proof.
  pose proof (run_ops_wf testConfig
                [OpSubscribePath "p1" "/a" 0 None 1%nat;
                 OpSubscribePath "p2" "/b/c" 1 (Some 100) 1%nat]
                (testManager, newWorld) (wf_empty_manager "gui")) as H1.
  pose proof (λ s H, subscribeNonPath_wf
                       "n1" SubscriptionTopic_OVERALL_SYNC_STATUS None 1%nat
                       s.1 s.2 H) as F1.
  pose proof (λ s H, subscribeNonPath_wf
                       "n2" SubscriptionTopic_ONLINE_STATUS None 1%nat
                       s.1 s.2 H) as F2.
  exact (F2 _ (F1 _ H1)).
Qed.

Lemma Shutdown_cancels_every_subscription_witness :
  let s' := Shutdown mixed_subscriptions.1 mixed_subscriptions.2 in
  no_subscriptions s'.1 ∧
  ∀ id, (id < 4)%nat → ShutdownNotify id ∈ emitted mixed_subscriptions.2 s'.2.
Proof.
  pose proof mixed_subscriptions_wf as Hwf.
  destruct (Shutdown_cancels_every_subscription
              mixed_subscriptions.1 mixed_subscriptions.2 Hwf)
    as (Hnone & _ & _ & _).
  cbn zeta in *. split; [exact Hnone|].
  intros id Hid.
  do 4 (destruct id as [|id];
        [apply list_elem_of_In; vm_compute; tauto|]).
  lia.
Defined.

(** ** Subscribing and unsubscribing in turn *)

Lemma unsubscribeNonPath_effects_extend sid sm w :
  ∃ es, effects (unsubscribeNonPath sid sm w).2 = effects w ++ es.
Proof.
  unfold unsubscribeNonPath.
  destruct (nonPathSubscriptionIDToTopic sm !! sid) as [t|];
    [|exists []; by rewrite app_nil_r].
  cbn. destruct (nonPathSubscriptions sm !! t) as [b|]; cbn;
    [|exists []; by rewrite app_nil_r].
  destruct (b !! sid); cbn; [by eexists|exists []; by rewrite app_nil_r].
Qed.

(** X5.  On a manager with consistent indices [Unsubscribe] shuts down the
    delivery stored for the SID, whichever kind it is, and frees the SID: it
    is in neither reverse index, it is not active, and a subscription with
    the same SID succeeds again. *)
Theorem Unsubscribe_frees_the_sid
    (sid : SubscriptionID) (sm : subscriptionManager) (w : World) :
  wf_manager sm →
  let s' := Unsubscribe sid sm w in
  pathSubscriptionIDToRef s'.1 !! sid = None ∧
  nonPathSubscriptionIDToTopic s'.1 !! sid = None ∧
  bool_at (subscriptionIDs s'.1) sid = false ∧
  (∀ ref dn, keyed_at sm ref sid dn →
             ShutdownNotify (dn_id dn) ∈ emitted w s'.2) ∧
  (∀ topic dn, keyed_at_topic sm topic sid dn →
               ShutdownNotify (dn_id dn) ∈ emitted w s'.2) ∧
  (∀ n topic d, (SubscribeNonPath n sid topic d s'.1 s'.2).1.1 = None) ∧
  (∀ cfg n p topic d parsed fb,
     parsePath cfg p = inr parsed →
     getFolderBranch cfg parsed = inr fb →
     (SubscribePath cfg n sid p topic d s'.1 s'.2).1.1 = None).
Proof.
  intros Hwf. cbn zeta.
  pose proof (Unsubscribe_wf sid sm w Hwf) as Hwf'.
  assert (Hp : pathSubscriptionIDToRef (Unsubscribe sid sm w).1 !! sid = None).
  { unfold Unsubscribe.
    pose proof (unsubscribePath_removes sid sm w) as H1.
    destruct (unsubscribePath sid sm w) as [sm1 w1].
    by rewrite unsubscribeNonPath_keeps_path_index. }
  assert (Ht : nonPathSubscriptionIDToTopic (Unsubscribe sid sm w).1 !! sid
               = None).
  { unfold Unsubscribe. destruct (unsubscribePath sid sm w) as [sm1 w1].
    apply unsubscribeNonPath_removes. }
  assert (Hb : bool_at (subscriptionIDs (Unsubscribe sid sm w).1) sid = false).
  { apply not_true_is_false. intros Ha%(wf_active _ Hwf').
    rewrite Hp, Ht in Ha. by destruct Ha as [[? ?]|[? ?]]. }
  split; [done|]. split; [done|]. split; [done|].
  split; [|split; [|split]].
  - intros ref dn Hk. unfold Unsubscribe.
    pose proof (wf_path_bwd _ Hwf _ _ _ Hk) as Hid.
    destruct (unsubscribePath_step sid sm w ref Hwf Hid)
      as (_ & _ & _ & _ & _ & _ & _ & dn' & extra & Hk' & He).
    cbn zeta in He.
    rewrite (keyed_at_functional _ _ _ _ _ Hk Hk').
    destruct (unsubscribePath sid sm w) as [sm1 w1]. cbn [snd] in He.
    destruct (unsubscribeNonPath_effects_extend sid sm1 w1) as (es & Hes).
    rewrite (emitted_app w _ (ShutdownNotify (dn_id dn') :: extra ++ es)).
    + by left.
    + by rewrite Hes, He, <- app_assoc.
  - intros topic dn Hk. unfold Unsubscribe.
    pose proof (wf_topic_bwd _ Hwf _ _ _ Hk) as Hid.
    assert (Hnp : pathSubscriptionIDToRef sm !! sid = None).
    { apply eq_None_not_Some. intros Hs%(wf_exclusive _ Hwf). congruence. }
    rewrite unsubscribePath_absent by done.
    destruct (unsubscribeNonPath_step sid sm w topic Hwf Hid)
      as (_ & _ & _ & _ & _ & _ & _ & dn' & Hk' & He).
    cbn zeta in He.
    rewrite (keyed_at_topic_functional _ _ _ _ _ Hk Hk').
    rewrite (emitted_app w _ [ShutdownNotify (dn_id dn')]) by done.
    by left.
  - intros n topic d. unfold SubscribeNonPath.
    by destruct (subscribeNonPath_fresh sid topic d n _
                   (Unsubscribe sid sm w).2 Hb) as (dn & w' & ->).
  - intros cfg n p topic d parsed fb Hparse Hfb. unfold SubscribePath.
    destruct (decide (fb = zeroFolderBranch)) as [->|Hz].
    + unfold subscribePath. by rewrite Hparse, Hfb, decide_True.
    + by destruct (subscribePath_fresh cfg sid p topic d n _
                     (Unsubscribe sid sm w).2 parsed fb Hparse Hfb Hz Hb)
        as (dn & c & w' & ->).
Qed.

Lemma Unsubscribe_frees_the_sid_witness :
  let s' := Unsubscribe "p1" mixed_subscriptions.1 mixed_subscriptions.2 in
  bool_at (subscriptionIDs mixed_subscriptions.1) "p1" = true ∧
  bool_at (subscriptionIDs s'.1) "p1" = false ∧
  (SubscribeNonPath 1 "p1" SubscriptionTopic_ONLINE_STATUS None s'.1 s'.2).1.1
  = None.
Proof.
  pose proof mixed_subscriptions_wf as Hwf.
  destruct (Unsubscribe_frees_the_sid
              "p1" mixed_subscriptions.1 mixed_subscriptions.2 Hwf)
    as (_ & _ & Hb & _ & _ & Hn & _).
  cbn zeta in *. split; [by vm_compute|]. split; [exact Hb|apply Hn].
Defined.

(** An inactive SID has no entry in the set of active SIDs. *)
Lemma inactive_not_in_set sm sid :
  wf_manager sm → bool_at (subscriptionIDs sm) sid = false →
  subscriptionIDs sm !! sid = None.
Proof.
  intros Hwf Hb. destruct (subscriptionIDs sm !! sid) as [b|] eqn:E; [|done].
  pose proof (wf_active_true _ Hwf _ _ E) as ->.
  unfold bool_at in Hb. by rewrite E in Hb.
Qed.

(** A successful [subscribePath], with its delivery, its counts and its
    effects. *)
Lemma subscribePath_fresh_full cfg sid p topic d n sm w parsed fb :
  parsePath cfg p = inr parsed →
  getFolderBranch cfg parsed = inr fb →
  fb ≠ zeroFolderBranch →
  bool_at (subscriptionIDs sm) sid = false →
  let ref := mkRef fb (getCleanInTlfPath cfg parsed) in
  let dn := mkDebounced (next_id w)
              (OnPathChange n (clientID sm) sid p topic)
              (match d with None => Inf | Some i => rate_Every i end) in
  subscribePath cfg sid p topic d n sm w
  = (None,
     mkSM (clientID sm)
          (<[ref := <[sid := dn]> (default ∅ (pathSubscriptions sm !! ref))]>
             (pathSubscriptions sm))
          (<[sid := ref]> (pathSubscriptionIDToRef sm))
          (nonPathSubscriptions sm) (nonPathSubscriptionIDToTopic sm)
          (<[sid := true]> (subscriptionIDs sm))
          (<[fb := wrap64 (int_at (subscriptionCountByFolderBranch sm) fb + 1)]>
             (subscriptionCountByFolderBranch sm)),
     mkWorld (S (next_id w))
             (effects w
              ++ (if int_at (subscriptionCountByFolderBranch sm) fb =? 0
                  then [RegisterForChanges fb] else [])
              ++ [Debounce dn])).
Proof.
  intros Hp Hfb Hz Hb. cbn zeta.
  unfold subscribePath, checkSubscriptionIDLocked.
  rewrite Hp, Hfb, decide_False, Hb by done.
  unfold registerForChangesLocked, debounce,
    with_subscriptionCountByFolderBranch, with_pathSubscriptions,
    with_pathSubscriptionIDToRef, with_subscriptionIDs.
  cbn.
  destruct (pathSubscriptions sm !! _) as [b|] eqn:E; cbn.
  - rewrite E. cbn.
    destruct (int_at (subscriptionCountByFolderBranch sm) fb =? 0); cbn;
      by rewrite <- ?app_assoc.
  - rewrite lookup_insert_eq, insert_insert_eq. cbn.
    destruct (int_at (subscriptionCountByFolderBranch sm) fb =? 0); cbn;
      by rewrite <- ?app_assoc.
Qed.

(** X6.  On a manager with consistent indices, a successful [SubscribePath]
    with an inactive SID followed by [unsubscribePath] of that SID restores
    both path indices, both non-path indices and the set of active SIDs; the
    delivery that was created is the one that is shut down. *)
Theorem subscribe_unsubscribe_path_round_trip
    (cfg : Config) (n : nat) (sid : SubscriptionID) (p : string)
    (topic : PathSubscriptionTopic) (d : option Z)
    (sm : subscriptionManager) (w : World)
    (parsed : parsedPath) (fb : FolderBranch) :
  wf_manager sm →
  bool_at (subscriptionIDs sm) sid = false →
  parsePath cfg p = inr parsed →
  getFolderBranch cfg parsed = inr fb →
  fb ≠ zeroFolderBranch →
  let s1 := after (SubscribePath cfg n sid p topic d sm w) in
  let s2 := unsubscribePath sid s1.1 s1.2 in
  (SubscribePath cfg n sid p topic d sm w).1.1 = None ∧
  clientID s2.1 = clientID sm ∧
  pathSubscriptions s2.1 = pathSubscriptions sm ∧
  pathSubscriptionIDToRef s2.1 = pathSubscriptionIDToRef sm ∧
  nonPathSubscriptions s2.1 = nonPathSubscriptions sm ∧
  nonPathSubscriptionIDToTopic s2.1 = nonPathSubscriptionIDToTopic sm ∧
  subscriptionIDs s2.1 = subscriptionIDs sm ∧
  ∃ dn,
    dn_do dn = OnPathChange n (clientID sm) sid p topic ∧
    keyed_at s1.1 (mkRef fb (getCleanInTlfPath cfg parsed)) sid dn ∧
    Debounce dn ∈ emitted w s1.2 ∧
    ShutdownNotify (dn_id dn) ∈ emitted s1.2 s2.2.
Proof.
  intros Hwf Hb Hparse Hfb Hz. cbn zeta. unfold SubscribePath.
  pose proof (subscribePath_fresh_full cfg sid p topic d n sm w parsed fb
                Hparse Hfb Hz Hb) as Hsub.
  cbn zeta in Hsub. rewrite Hsub. unfold after. cbn [fst snd].
  set (ref := mkRef fb (getCleanInTlfPath cfg parsed)) in *.
  set (dn := mkDebounced _ _ _) in *.
  set (b0 := default ∅ (pathSubscriptions sm !! ref)).
  destruct (inactive_not_indexed sm sid Hwf Hb) as [Hnp Hnt].
  pose proof (inactive_not_in_set sm sid Hwf Hb) as Hns.
  assert (Hb0 : b0 !! sid = None).
  { subst b0. destruct (pathSubscriptions sm !! ref) as [b|] eqn:E; [|done].
    cbn. destruct (b !! sid) as [dn'|] eqn:Es; [|done].
    assert (keyed_at sm ref sid dn') as Hk by (by exists b).
    apply (wf_path_bwd _ Hwf) in Hk. congruence. }
  set (sm1 := mkSM _ _ _ _ _ _ _).
  set (w1 := mkWorld _ _).
  destruct (unsubscribePath_present sid sm1 w1 ref (<[sid := dn]> b0) dn)
    as (counts & extra & -> & _).
  { subst sm1. cbn. apply lookup_insert_eq. }
  { subst sm1. cbn. apply lookup_insert_eq. }
  { apply lookup_insert_eq. }
  subst sm1 w1.
  cbn [fst snd clientID pathSubscriptions pathSubscriptionIDToRef
       nonPathSubscriptions nonPathSubscriptionIDToTopic subscriptionIDs
       effects].
  rewrite (delete_insert_id b0) by done.
  split; [done|]. split; [done|]. split.
  { subst b0. destruct (pathSubscriptions sm !! ref) as [b|] eqn:E; cbn.
    - rewrite decide_False.
      + rewrite insert_insert_eq. by apply insert_id.
      + intros ->. by apply (wf_buckets _ Hwf ref).
    - rewrite decide_True by done. by apply delete_insert_id. }
  split; [by apply delete_insert_id|]. split; [done|]. split; [done|].
  split; [by apply delete_insert_id|].
  exists dn. split; [done|]. split; [|split].
  - eexists. split; [apply lookup_insert_eq|apply lookup_insert_eq].
  - unfold emitted. cbn [effects]. rewrite drop_app_length.
    apply elem_of_app. right. by left.
  - unfold emitted. cbn [effects]. rewrite drop_app_length. by left.
Qed.

Lemma subscribe_unsubscribe_path_round_trip_witness :
  let sm := mixed_subscriptions.1 in
  let w := mixed_subscriptions.2 in
  let s1 := after (SubscribePath testConfig 2 "again" "/a" 0 None sm w) in
  let s2 := unsubscribePath "again" s1.1 s1.2 in
  pathSubscriptions s2.1 = pathSubscriptions sm ∧
  pathSubscriptionIDToRef s2.1 = pathSubscriptionIDToRef sm ∧
  subscriptionIDs s2.1 = subscriptionIDs sm ∧
  bool_at (subscriptionIDs s1.1) "again" = true.
Proof.
  cbn zeta.
  destruct (subscribe_unsubscribe_path_round_trip
              testConfig 2 "again" "/a" 0 None
              mixed_subscriptions.1 mixed_subscriptions.2
              (mkParsedPath "/a") testFB)
    as (_ & _ & Hps & Hid & _ & _ & Hids & _);
    [apply mixed_subscriptions_wf | by vm_compute | reflexivity | reflexivity
    | discriminate |].
  cbn zeta in *. split; [exact Hps|]. split; [exact Hid|].
  split; [exact Hids|]. by vm_compute.
Defined.

(** A successful [subscribeNonPath], with its delivery and its effects. *)
Lemma subscribeNonPath_fresh_full sid topic d n sm w :
  bool_at (subscriptionIDs sm) sid = false →
  let dn := mkDebounced (next_id w)
              (OnNonPathChange n (clientID sm) sid topic)
              (match d with None => Inf | Some i => rate_Every i end) in
  subscribeNonPath sid topic d n sm w
  = (None,
     mkSM (clientID sm) (pathSubscriptions sm) (pathSubscriptionIDToRef sm)
          (<[topic := <[sid := dn]>
                        (default ∅ (nonPathSubscriptions sm !! topic))]>
             (nonPathSubscriptions sm))
          (<[sid := topic]> (nonPathSubscriptionIDToTopic sm))
          (<[sid := true]> (subscriptionIDs sm))
          (subscriptionCountByFolderBranch sm),
     mkWorld (S (next_id w)) (effects w ++ [Debounce dn])).
Proof.
  intros Hb. cbn zeta. unfold subscribeNonPath, checkSubscriptionIDLocked.
  rewrite Hb.
  unfold debounce, with_nonPathSubscriptions,
    with_nonPathSubscriptionIDToTopic, with_subscriptionIDs.
  cbn.
  destruct (nonPathSubscriptions sm !! topic) as [b|] eqn:E; cbn.
  - by rewrite E.
  - by rewrite lookup_insert_eq, insert_insert_eq.
Qed.

(** X7.  On a manager with consistent indices, a successful
    [SubscribeNonPath] with an inactive SID followed by [unsubscribeNonPath]
    of that SID restores the reverse index, the set of active SIDs and
    everything of the path side, creates one delivery and shuts that one
    down; the bucket of the topic is kept, empty if the topic had no
    subscriber before. *)
Theorem subscribe_unsubscribe_nonpath_keeps_bucket
    (n : nat) (sid : SubscriptionID) (topic : SubscriptionTopic)
    (d : option Z) (sm : subscriptionManager) (w : World) :
  wf_manager sm →
  bool_at (subscriptionIDs sm) sid = false →
  let s1 := after (SubscribeNonPath n sid topic d sm w) in
  let s2 := unsubscribeNonPath sid s1.1 s1.2 in
  let dn := mkDebounced (next_id w)
              (OnNonPathChange n (clientID sm) sid topic)
              (match d with None => Inf | Some i => rate_Every i end) in
  (SubscribeNonPath n sid topic d sm w).1.1 = None ∧
  s2.1 = with_nonPathSubscriptions
           (λ m, <[topic := default ∅ (m !! topic)]> m) sm ∧
  keyed_at_topic s1.1 topic sid dn ∧
  emitted w s2.2 = [Debounce dn; ShutdownNotify (dn_id dn)].
Proof.
  intros Hwf Hb. cbn zeta. unfold SubscribeNonPath.
  pose proof (subscribeNonPath_fresh_full sid topic d n sm w Hb) as Hsub.
  cbn zeta in Hsub. rewrite Hsub. unfold after. cbn [fst snd].
  set (dn := mkDebounced _ _ _) in *.
  set (b0 := default ∅ (nonPathSubscriptions sm !! topic)).
  destruct (inactive_not_indexed sm sid Hwf Hb) as [Hnp Hnt].
  pose proof (inactive_not_in_set sm sid Hwf Hb) as Hns.
  assert (Hb0 : b0 !! sid = None).
  { subst b0. destruct (nonPathSubscriptions sm !! topic) as [b|] eqn:E;
      [|done].
    cbn. destruct (b !! sid) as [dn'|] eqn:Es; [|done].
    assert (keyed_at_topic sm topic sid dn') as Hk by (by exists b).
    apply (wf_topic_bwd _ Hwf) in Hk. congruence. }
  set (sm1 := mkSM _ _ _ _ _ _ _).
  set (w1 := mkWorld _ _).
  rewrite (unsubscribeNonPath_present sid sm1 w1 topic (<[sid := dn]> b0) dn);
    [|subst sm1; cbn; apply lookup_insert_eq..|apply lookup_insert_eq].
  subst sm1 w1.
  cbn [fst snd clientID pathSubscriptions pathSubscriptionIDToRef
       nonPathSubscriptions nonPathSubscriptionIDToTopic subscriptionIDs
       subscriptionCountByFolderBranch effects next_id].
  rewrite (delete_insert_id b0) by done.
  rewrite (delete_insert_id (nonPathSubscriptionIDToTopic sm)) by done.
  rewrite (delete_insert_id (subscriptionIDs sm)) by done.
  rewrite insert_insert_eq.
  split; [done|]. split; [done|]. split.
  - eexists. split; apply lookup_insert_eq.
  - apply emitted_app. cbn. by rewrite <- app_assoc.
Qed.

Lemma subscribe_unsubscribe_nonpath_keeps_bucket_witness :
  let s1 := after (SubscribeNonPath 1 "n" 7 None testManager newWorld) in
  let s2 := unsubscribeNonPath "n" s1.1 s1.2 in
  nonPathSubscriptions testManager !! 7 = None ∧
  nonPathSubscriptions s2.1 !! 7 = Some ∅ ∧
  subscriptionIDs s2.1 = ∅ ∧
  emitted newWorld s2.2
  = [Debounce (mkDebounced 0 (OnNonPathChange 1 "gui" "n" 7) Inf);
     ShutdownNotify 0].
Proof.
  cbn zeta.
  destruct (subscribe_unsubscribe_nonpath_keeps_bucket
              1 "n" 7 None testManager newWorld)
    as (_ & Hsm & _ & Hemit);
    [apply wf_empty_manager | reflexivity |].
  cbn zeta in *. split; [reflexivity|].
  rewrite Hsm. split; [reflexivity|]. split; [reflexivity|exact Hemit].
Defined.

(** ** Topic buckets are kept *)

Lemma subscribePath_keeps_topics cfg sid p topic d n sm w :
  nonPathSubscriptions (after (subscribePath cfg sid p topic d n sm w)).1
  = nonPathSubscriptions sm.
Proof.
  unfold subscribePath, after, checkSubscriptionIDLocked.
  destruct (parsePath cfg p) as [e|parsed]; [done|].
  destruct (getFolderBranch cfg parsed) as [e|fb]; [done|].
  case_decide; [done|].
  destruct (bool_at (subscriptionIDs sm) sid); [done|].
  unfold registerForChangesLocked, debounce. cbn.
  by destruct (pathSubscriptions sm !! _).
Qed.

Lemma unsubscribePath_keeps_topics sid sm w :
  nonPathSubscriptions (unsubscribePath sid sm w).1 = nonPathSubscriptions sm.
Proof.
  unfold unsubscribePath.
  destruct (pathSubscriptionIDToRef sm !! sid) as [ref|]; [|done].
  cbn. destruct (pathSubscriptions sm !! ref) as [bucket|]; [|done].
  destruct (bucket !! sid); cbn; case_decide; cbn; try done;
    unfold unregisterForChangesLocked; cbn;
    by destruct (int_at _ _ =? 1).
Qed.

Lemma subscribeNonPath_keeps_topics sid topic d n sm w t :
  is_Some (nonPathSubscriptions sm !! t) →
  is_Some (nonPathSubscriptions
             (after (subscribeNonPath sid topic d n sm w)).1 !! t).
Proof.
  intros Ht. unfold subscribeNonPath, after, checkSubscriptionIDLocked.
  destruct (bool_at (subscriptionIDs sm) sid); [done|].
  unfold debounce. cbn.
  destruct (nonPathSubscriptions sm !! topic) eqn:E; cbn;
    (destruct (decide (topic = t)) as [->|?];
     [rewrite lookup_insert_eq; eauto|by rewrite !lookup_insert_ne]).
Qed.

Lemma unsubscribeNonPath_keeps_topics sid sm w t :
  is_Some (nonPathSubscriptions sm !! t) →
  is_Some (nonPathSubscriptions (unsubscribeNonPath sid sm w).1 !! t).
Proof.
  intros Ht. unfold unsubscribeNonPath.
  destruct (nonPathSubscriptionIDToTopic sm !! sid) as [topic|]; [|done].
  cbn. destruct (nonPathSubscriptions sm !! topic) as [bucket|]; [|done].
  destruct (bucket !! sid); cbn;
    (destruct (decide (topic = t)) as [->|?];
     [rewrite lookup_insert_eq; eauto|by rewrite lookup_insert_ne]).
Qed.

Lemma manager_step_keeps_topics s op t :
  is_Some (nonPathSubscriptions s.1 !! t) →
  is_Some (nonPathSubscriptions (manager_step s op).1 !! t).
Proof.
  intros Ht. destruct op; cbn [manager_step].
  - unfold SubscribePath. by rewrite subscribePath_keeps_topics.
  - by apply subscribeNonPath_keeps_topics.
  - by rewrite unsubscribePath_keeps_topics.
  - by apply unsubscribeNonPath_keeps_topics.
  - unfold Unsubscribe.
    pose proof (unsubscribePath_keeps_topics sid s.1 s.2) as H1.
    destruct (unsubscribePath sid s.1 s.2) as [sm1 w1]. cbn [fst] in H1.
    apply unsubscribeNonPath_keeps_topics. by rewrite H1.
Qed.

(** X8.  No operation of a manager removes a topic bucket: a topic that has
    a bucket keeps one through every sequence of subscribe and unsubscribe
    calls, and through [Shutdown], whatever the state of the manager. *)
Theorem topic_buckets_are_never_removed
    (t : SubscriptionTopic) (s : subscriptionManager * World)
    (ops : list ManagerOp) :
  is_Some (nonPathSubscriptions s.1 !! t) →
  is_Some (nonPathSubscriptions (manager_run ops s).1 !! t) ∧
  is_Some (nonPathSubscriptions
             (Shutdown (manager_run ops s).1 (manager_run ops s).2).1 !! t).
Proof.
  intros Ht.
  assert (Hrun : is_Some (nonPathSubscriptions (manager_run ops s).1 !! t)).
  { revert s Ht. induction ops as [|op ops IH]; intros s Ht; [done|].
    cbn. apply IH. by apply manager_step_keeps_topics. }
  split; [exact Hrun|].
  generalize dependent (manager_run ops s). clear. intros [sm w] Ht.
  cbn [fst snd] in *. unfold Shutdown.
  set (w0 := emit _ w). generalize w0. clear w0. intros w0.
  generalize ((map_to_list (nonPathSubscriptionIDToTopic sm)).*1).
  generalize ((map_to_list (pathSubscriptionIDToRef sm)).*1).
  intros l1 l2.
  assert (H1 : ∀ l s0,
            is_Some (nonPathSubscriptions s0.1 !! t) →
            is_Some (nonPathSubscriptions
                       (foldl (λ s sid, unsubscribePath sid s.1 s.2) s0 l).1
                     !! t)).
  { induction l as [|sid l IH]; intros s0 H0; [done|].
    cbn. apply IH. by rewrite unsubscribePath_keeps_topics. }
  assert (H2 : ∀ l s0,
            is_Some (nonPathSubscriptions s0.1 !! t) →
            is_Some (nonPathSubscriptions
                       (foldl (λ s sid, unsubscribeNonPath sid s.1 s.2) s0 l).1
                     !! t)).
  { induction l as [|sid l IH]; intros s0 H0; [done|].
    cbn. apply IH. by apply unsubscribeNonPath_keeps_topics. }
  apply H2. by apply H1.
Qed.

Lemma topic_buckets_are_never_removed_witness :
  let s := manager_run [MUnsubscribe "n1"; MUnsubscribe "n2"]
                       mixed_subscriptions in
  nonPathSubscriptions s.1 !! SubscriptionTopic_ONLINE_STATUS = Some ∅ ∧
  is_Some (nonPathSubscriptions (Shutdown s.1 s.2).1
           !! SubscriptionTopic_ONLINE_STATUS).
Proof.
  cbn zeta. split; [by vm_compute|].
  apply (topic_buckets_are_never_removed
           SubscriptionTopic_ONLINE_STATUS mixed_subscriptions
           [MUnsubscribe "n1"; MUnsubscribe "n2"]).
  eexists. vm_compute. reflexivity.
Defined.
